(** * Auto-healer: a shallow embedding of apps/auto-healer

    The development follows [healer.py] ([PodRestartHealer],
    [DeploymentPatcher], [NamespaceHealthChecker]) and [main.py]
    ([AutoHealerService]): the restart count of a pod, the restart patch
    of a deployment, the namespace summary, and the healing cycle from the
    scan of the namespaces to the remediation of each record.  Python
    objects become records, [None]-able attributes become [option],
    integers are [Z], the labelled Prometheus counters become [gmap]s, and
    the code's effects (cluster API requests, metrics, log lines, sleeps)
    are threaded through an explicit state.  Exceptions are values: a
    computation yields [Ok v] or [Raise e] together with the state reached
    so far, so that what a handler sees is what the body left behind. *)

From stdpp Require Import gmap strings list pretty.
From Stdlib Require Import ZArith Lia.

Open Scope Z_scope.
Open Scope string_scope.

(** ** Python values *)

(** The two exception classes the handlers tell apart:
    [except ApiException] and the catch-all [except Exception]. *)
Inductive exn :=
| ApiException (reason : string)
| Exception (reason : string).

Inductive result (A : Type) :=
| Ok (a : A)
| Raise (e : exn).
Arguments Ok {A} a.
Arguments Raise {A} e.

Definition is_ok {A} (r : result A) : bool :=
  match r with Ok _ => true | Raise _ => false end.

Definition exn_str (e : exn) : string :=
  match e with ApiException m => m | Exception m => m end.

(** Truth value of an attribute holding [None] or a list:
    [None] and [[]] are both falsy. *)
Definition list_truthy {A} (o : option (list A)) : bool :=
  match o with
  | Some (_ :: _) => true
  | _ => false
  end.

(** Iterating a truthy list attribute. *)
Definition list_items {A} (o : option (list A)) : list A :=
  match o with Some l => l | None => [] end.

(** [d[k] = v] on an insertion-ordered dict. *)
Fixpoint dict_setitem {V} (d : list (string * V)) (k : string) (v : V)
  : list (string * V) :=
  match d with
  | [] => [(k, v)]
  | (k', v') :: d' =>
      if String.eqb k' k then (k', v) :: d' else (k', v') :: dict_setitem d' k v
  end.

(** ** Cluster objects, with the attributes the code reads *)

Record V1OwnerReference := {
  kind : string;
  owner_name : string
}.

Record V1ContainerStatus := {
  container_name : string;
  restart_count : Z;
  image : string;
  ready : bool;
  last_termination_time : option string
}.

Record V1Pod := {
  pod_name : string;
  pod_owner_references : option (list V1OwnerReference);
  phase : option string;
  container_statuses : option (list V1ContainerStatus)
}.

Record V1ReplicaSet := {
  rs_owner_references : option (list V1OwnerReference)
}.

Record V1Deployment := {
  replicas : option Z;
  ready_replicas : option Z
}.

(** ** Effects *)

(** Requests sent to the cluster.  A patch carries the annotations of its
    merge-patch body. *)
Inductive request :=
| ListPods (namespace : string)
| ReadPod (name namespace : string)
| ReadReplicaSet (name namespace : string)
| ListDeployments (namespace : string)
| PatchDeployment (name namespace : string) (annotations : list (string * string)).

(** What the process did to the outside world, oldest first: each request
    with whether it was answered without an exception, and each sleep. *)
Inductive event :=
| Call (req : request) (ok : bool)
| Sleep (seconds : Z).

Definition is_mutating (ev : event) : bool :=
  match ev with
  | Call (PatchDeployment _ _ _) _ => true
  | _ => false
  end.

Definition mutating_calls (tr : list event) : list event :=
  List.filter is_mutating tr.

Definition is_failure (ev : event) : bool :=
  match ev with
  | Call _ false => true
  | _ => false
  end.

(** The pods whose remediation was started, in order: each
    [heal_deployment] begins by reading its pod. *)
Fixpoint pods_read (tr : list event) : list (string * string) :=
  match tr with
  | [] => []
  | Call (ReadPod n ns) _ :: tr' => (n, ns) :: pods_read tr'
  | _ :: tr' => pods_read tr'
  end.

(** The deployments a patch was sent to, in order. *)
Fixpoint patched (tr : list event) : list (string * string) :=
  match tr with
  | [] => []
  | Call (PatchDeployment n ns _) _ :: tr' => (n, ns) :: patched tr'
  | _ :: tr' => patched tr'
  end.

(** The cluster and the clock as the process sees them.  An answer may
    depend on everything that happened before the request. *)
Record World := {
  list_namespaced_pod : list event -> string -> result (list V1Pod);
  read_namespaced_pod : list event -> string -> string -> result V1Pod;
  read_namespaced_replica_set : list event -> string -> string -> result V1ReplicaSet;
  list_namespaced_deployment : list event -> string -> result (list V1Deployment);
  patch_namespaced_deployment :
    list event -> string -> string -> list (string * string) -> result unit;
  utcnow : list event -> string
}.

Inductive level := INFO | WARNING | ERROR.

(** Process state: the three module-level metrics of [main.py], the
    interaction with the world, and the log. *)
Record state := {
  HEAL_ACTIONS : gmap (string * string * string) nat;
  UNHEALTHY_PODS : Z;
  HEAL_ERRORS : gmap string nat;
  trace : list event;
  log : list (level * string)
}.

Definition initial_state : state :=
  {| HEAL_ACTIONS := ∅; UNHEALTHY_PODS := 0; HEAL_ERRORS := ∅;
     trace := []; log := [] |}.

(** Value of a labelled counter; a child that was never touched reads 0. *)
Definition counter {K} `{Countable K} (m : gmap K nat) (k : K) : nat :=
  default 0%nat (m !! k).

Definition counter_inc {K} `{Countable K} (m : gmap K nat) (k : K) : gmap K nat :=
  <[k := S (counter m k)]> m.

(** ** The monad of effectful code *)

Definition M (A : Type) : Type := state -> result A * state.

Definition ret {A} (a : A) : M A := fun s => (Ok a, s).

Definition bind {A B} (m : M A) (k : A -> M B) : M B :=
  fun s =>
    match m s with
    | (Ok a, s') => k a s'
    | (Raise e, s') => (Raise e, s')
    end.

Declare Scope M_scope.
Delimit Scope M_scope with M.
Notation "x ← y ; z" := (bind y (fun x => z))
  (at level 20, y at level 100, z at level 200, only parsing) : M_scope.
Notation "x ;; z" := (bind x (fun _ => z))
  (at level 100, z at level 200, only parsing, right associativity) : M_scope.
Open Scope M_scope.

(** [try: body  except ApiException as e: handler e] *)
Definition try_except_ApiException {A} (body : M A) (handler : string -> M A) : M A :=
  fun s =>
    match body s with
    | (Raise (ApiException e), s') => handler e s'
    | r => r
    end.

(** [try: body  except Exception as e: handler e] *)
Definition try_except_Exception {A} (body : M A) (handler : string -> M A) : M A :=
  fun s =>
    match body s with
    | (Raise e, s') => handler (exn_str e) s'
    | r => r
    end.

Definition logged (l : level) (msg : string) (s : state) : state :=
  {| HEAL_ACTIONS := HEAL_ACTIONS s; UNHEALTHY_PODS := UNHEALTHY_PODS s;
     HEAL_ERRORS := HEAL_ERRORS s; trace := trace s;
     log := log s ++ [(l, msg)] |}.

(** [logger.info(msg)], [logger.warning(msg)], [logger.error(msg)] *)
Definition logger (l : level) (msg : string) : M unit :=
  fun s => (Ok tt, logged l msg s).

Definition action_counted (type namespace resource : string) (s : state) : state :=
  {| HEAL_ACTIONS := counter_inc (HEAL_ACTIONS s) (type, namespace, resource);
     UNHEALTHY_PODS := UNHEALTHY_PODS s;
     HEAL_ERRORS := HEAL_ERRORS s; trace := trace s; log := log s |}.

(** [HEAL_ACTIONS.labels(type=.., namespace=.., resource=..).inc()] *)
Definition HEAL_ACTIONS_inc (type namespace resource : string) : M unit :=
  fun s => (Ok tt, action_counted type namespace resource s).

Definition error_counted (error_type : string) (s : state) : state :=
  {| HEAL_ACTIONS := HEAL_ACTIONS s; UNHEALTHY_PODS := UNHEALTHY_PODS s;
     HEAL_ERRORS := counter_inc (HEAL_ERRORS s) error_type;
     trace := trace s; log := log s |}.

(** [HEAL_ERRORS.labels(error_type=..).inc()] *)
Definition HEAL_ERRORS_inc (error_type : string) : M unit :=
  fun s => (Ok tt, error_counted error_type s).

(** [UNHEALTHY_PODS.set(v)] *)
Definition UNHEALTHY_PODS_set (v : Z) : M unit :=
  fun s =>
    (Ok tt, {| HEAL_ACTIONS := HEAL_ACTIONS s; UNHEALTHY_PODS := v;
               HEAL_ERRORS := HEAL_ERRORS s; trace := trace s; log := log s |}).

Definition emit (ev : event) (s : state) : state :=
  {| HEAL_ACTIONS := HEAL_ACTIONS s; UNHEALTHY_PODS := UNHEALTHY_PODS s;
     HEAL_ERRORS := HEAL_ERRORS s; trace := trace s ++ [ev]; log := log s |}.

(** One request: the world answers from the history so far, and the
    request joins the history. *)
Definition call {A} (answer : list event -> result A) (req : request) : M A :=
  fun s => let r := answer (trace s) in (r, emit (Call req (is_ok r)) s).

(** [time.sleep(seconds)] *)
Definition sleep (seconds : Z) : M unit :=
  fun s => (Ok tt, emit (Sleep seconds) s).

(** [datetime.now(timezone.utc).isoformat()] *)
Definition now (w : World) : M string :=
  fun s => (Ok (utcnow w (trace s)), s).

(** ** healer.py *)

Section Healer.

Variable w : World.

(** *** PodRestartHealer *)

Section PodRestartHealer.

Variable restart_threshold : Z.

(** The loop of [get_pod_restart_count] over the container statuses. *)
Fixpoint max_restarts_loop (cs : list V1ContainerStatus) (max_restarts : Z) : Z :=
  match cs with
  | [] => max_restarts
  | container :: rest =>
      max_restarts_loop rest
        (if restart_count container >? max_restarts
         then restart_count container
         else max_restarts)
  end.

Definition get_pod_restart_count (pod_name namespace : string) : M Z :=
  try_except_ApiException
    (pod ← call (fun h => read_namespaced_pod w h pod_name namespace)
                (ReadPod pod_name namespace);
     if negb (list_truthy (container_statuses pod)) then ret 0
     else ret (max_restarts_loop (list_items (container_statuses pod)) 0))
    (fun e =>
       logger ERROR ("Failed to get restart count for pod " +:+ pod_name +:+ ": " +:+ e);;
       ret 0).

Definition is_pod_unhealthy (pod_name namespace : string) : M bool :=
  restart_count ← get_pod_restart_count pod_name namespace;
  ret (restart_count >=? restart_threshold).

End PodRestartHealer.

(** *** DeploymentPatcher *)

Definition restart_patch (timestamp : string) : list (string * string) :=
  [("kubectl.kubernetes.io/restartedAt", timestamp);
   ("auto-healer/restarted-at", timestamp);
   ("auto-healer/reason", "high-restart-count")].

Definition restart_deployment (deployment_name namespace : string) : M bool :=
  try_except_ApiException
    (timestamp ← now w;
     let patch := restart_patch timestamp in
     call (fun h => patch_namespaced_deployment w h deployment_name namespace patch)
          (PatchDeployment deployment_name namespace patch);;
     logger INFO ("Successfully patched deployment " +:+ deployment_name
                  +:+ " in " +:+ namespace);;
     ret true)
    (fun e =>
       logger ERROR ("Failed to patch deployment " +:+ deployment_name +:+ ": " +:+ e);;
       ret false).

(** *** NamespaceHealthChecker *)

Record pod_counts := {
  total : nat;
  running : nat;
  pending : nat;
  failed : nat;
  unhealthy : nat
}.

Record deployment_counts := {
  deployments_total : nat;
  deployments_ready : nat
}.

(** The two dictionaries [get_namespace_health_summary] can return. *)
Inductive health_summary :=
| Summary (namespace : string) (pods : pod_counts)
          (deployments : deployment_counts) (timestamp : string)
| SummaryError (namespace error timestamp : string).

(** [pod.status.phase == p] *)
Definition phase_is (pod : V1Pod) (p : string) : bool :=
  match phase pod with
  | Some x => String.eqb x p
  | None => false
  end.

(** The [if]/[elif] chain on the phase. *)
Definition count_phase (pod : V1Pod) (c : pod_counts) : pod_counts :=
  if phase_is pod "Running" then
    {| total := total c; running := S (running c); pending := pending c;
       failed := failed c; unhealthy := unhealthy c |}
  else if phase_is pod "Pending" then
    {| total := total c; running := running c; pending := S (pending c);
       failed := failed c; unhealthy := unhealthy c |}
  else if phase_is pod "Failed" then
    {| total := total c; running := running c; pending := pending c;
       failed := S (failed c); unhealthy := unhealthy c |}
  else c.

(** The loop over the containers of one pod; it stops at the first
    restart count of 3 or more. *)
Fixpoint count_restarts (cs : list V1ContainerStatus) (c : pod_counts) : pod_counts :=
  match cs with
  | [] => c
  | container :: rest =>
      if restart_count container >=? 3 then
        {| total := total c; running := running c; pending := pending c;
           failed := failed c; unhealthy := S (unhealthy c) |}
      else count_restarts rest c
  end.

(** Body of the loop over the pods. *)
Definition count_pod (c : pod_counts) (pod : V1Pod) : pod_counts :=
  let c := {| total := S (total c); running := running c; pending := pending c;
              failed := failed c; unhealthy := unhealthy c |} in
  let c := count_phase pod c in
  if list_truthy (container_statuses pod)
  then count_restarts (list_items (container_statuses pod)) c
  else c.

(** Truth value of an attribute holding [None] or an integer. *)
Definition int_truthy (o : option Z) : bool :=
  match o with
  | Some z => negb (z =? 0)%Z
  | None => false
  end.

(** [a == b] on attributes holding [None] or an integer. *)
Definition int_eq (a b : option Z) : bool :=
  match a, b with
  | Some x, Some y => (x =? y)%Z
  | None, None => true
  | _, _ => false
  end.

(** The condition of the [if] on a deployment. *)
Definition deployment_counted_ready (deployment : V1Deployment) : bool :=
  int_truthy (ready_replicas deployment)
  && int_eq (ready_replicas deployment) (replicas deployment).

(** Body of the loop over the deployments. *)
Definition count_deployment (c : deployment_counts) (deployment : V1Deployment)
  : deployment_counts :=
  let c := {| deployments_total := S (deployments_total c);
              deployments_ready := deployments_ready c |} in
  if deployment_counted_ready deployment then
    {| deployments_total := deployments_total c;
       deployments_ready := S (deployments_ready c) |}
  else c.

Definition get_namespace_health_summary (namespace : string) : M health_summary :=
  try_except_ApiException
    (timestamp ← now w;
     let pods0 := {| total := 0; running := 0; pending := 0;
                     failed := 0; unhealthy := 0 |}%nat in
     let deployments0 := {| deployments_total := 0; deployments_ready := 0 |}%nat in
     pods ← call (fun h => list_namespaced_pod w h namespace) (ListPods namespace);
     let pod_summary := fold_left count_pod pods pods0 in
     deployments ← call (fun h => list_namespaced_deployment w h namespace)
                        (ListDeployments namespace);
     let deployment_summary := fold_left count_deployment deployments deployments0 in
     ret (Summary namespace pod_summary deployment_summary timestamp))
    (fun e =>
       logger ERROR ("Failed to get namespace health summary for "
                     +:+ namespace +:+ ": " +:+ e);;
       timestamp ← now w;
       ret (SummaryError namespace e timestamp)).

End Healer.

(** ** main.py *)

(** The dictionary appended to [unhealthy] for a container. *)
Record pod_info := {
  info_name : string;
  info_namespace : string;
  info_restart_count : Z;
  info_container : string;
  info_image : string;
  info_ready : bool;
  info_last_restart : option string
}.

Section AutoHealerService.

Variable w : World.
Variable restart_threshold : Z.
Variable dry_run : bool.

(** [for container in pod.status.container_statuses] of
    [get_unhealthy_pods]: one entry is appended for each container at or
    above the threshold. *)
Fixpoint scan_containers (namespace : string) (pod : V1Pod)
    (cs : list V1ContainerStatus) (unhealthy : list pod_info) : list pod_info :=
  match cs with
  | [] => unhealthy
  | container :: rest =>
      scan_containers namespace pod rest
        (if restart_count container >=? restart_threshold then
           unhealthy ++ [{| info_name := pod_name pod;
                            info_namespace := namespace;
                            info_restart_count := restart_count container;
                            info_container := container_name container;
                            info_image := image container;
                            info_ready := ready container;
                            info_last_restart := last_termination_time container |}]
         else unhealthy)
  end.

(** [for pod in pods.items] of [get_unhealthy_pods]. *)
Fixpoint scan_pods (namespace : string) (pods : list V1Pod)
    (unhealthy : list pod_info) : list pod_info :=
  match pods with
  | [] => unhealthy
  | pod :: rest =>
      scan_pods namespace rest
        (if list_truthy (container_statuses pod)
         then scan_containers namespace pod (list_items (container_statuses pod)) unhealthy
         else unhealthy)
  end.

(** [for namespace in namespaces] of [get_unhealthy_pods]. *)
Fixpoint scan_namespaces (namespaces : list string)
    (unhealthy_pods : list (string * list pod_info))
  : M (list (string * list pod_info)) :=
  match namespaces with
  | [] => ret unhealthy_pods
  | namespace :: rest =>
      unhealthy_pods ←
        try_except_ApiException
          (pods ← call (fun h => list_namespaced_pod w h namespace) (ListPods namespace);
           let unhealthy := scan_pods namespace pods [] in
           match unhealthy with
           | [] => ret unhealthy_pods
           | _ :: _ =>
               let unhealthy_pods := dict_setitem unhealthy_pods namespace unhealthy in
               logger INFO ("Found " +:+ pretty (length unhealthy)
                            +:+ " unhealthy pods in namespace " +:+ namespace);;
               ret unhealthy_pods
           end)
          (fun e =>
             logger ERROR ("Failed to list pods in namespace " +:+ namespace
                           +:+ ": " +:+ e);;
             HEAL_ERRORS_inc "api_error";;
             ret unhealthy_pods);
      scan_namespaces rest unhealthy_pods
  end.

Definition get_unhealthy_pods (namespaces : option (list string))
  : M (list (string * list pod_info)) :=
  let namespaces :=
    match namespaces with
    | None => ["portal"; "hrt-sre"]
    | Some l => l
    end in
  scan_namespaces namespaces [].

(** [for rs_owner in rs.metadata.owner_references] of [heal_deployment].
    [Some b] is [return b]; [None] is the loop running to its end. *)
Fixpoint heal_rs_owners (namespace : string) (rs_owners : list V1OwnerReference)
  : M (option bool) :=
  match rs_owners with
  | [] => ret None
  | rs_owner :: rest =>
      if String.eqb (kind rs_owner) "Deployment" then
        let deployment_name := owner_name rs_owner in
        logger INFO ("Healing deployment " +:+ deployment_name
                     +:+ " in " +:+ namespace);;
        if dry_run then
          logger INFO ("DRY RUN: Would restart deployment " +:+ deployment_name);;
          HEAL_ACTIONS_inc "dry_run_restart" namespace deployment_name;;
          ret (Some true)
        else
          success ← restart_deployment w deployment_name namespace;
          if success then
            HEAL_ACTIONS_inc "restart" namespace deployment_name;;
            logger INFO ("Successfully triggered restart for " +:+ deployment_name);;
            ret (Some true)
          else
            HEAL_ERRORS_inc "patch_failed";;
            ret (Some false)
      else heal_rs_owners namespace rest
  end.

(** [for owner in pod.metadata.owner_references] of [heal_deployment]. *)
Fixpoint heal_owners (namespace : string) (owners : list V1OwnerReference)
  : M (option bool) :=
  match owners with
  | [] => ret None
  | owner :: rest =>
      if String.eqb (kind owner) "ReplicaSet" then
        rs ← call (fun h => read_namespaced_replica_set w h (owner_name owner) namespace)
                  (ReadReplicaSet (owner_name owner) namespace);
        if list_truthy (rs_owner_references rs) then
          returned ← heal_rs_owners namespace (list_items (rs_owner_references rs));
          match returned with
          | Some b => ret (Some b)
          | None => heal_owners namespace rest
          end
        else heal_owners namespace rest
      else heal_owners namespace rest
  end.

Definition heal_deployment (pod_info : pod_info) : M bool :=
  let namespace := info_namespace pod_info in
  let pod_name := info_name pod_info in
  try_except_ApiException
    (pod ← call (fun h => read_namespaced_pod w h pod_name namespace)
                (ReadPod pod_name namespace);
     if negb (list_truthy (pod_owner_references pod)) then
       logger WARNING ("Pod " +:+ pod_name +:+ " has no owner references, skipping");;
       ret false
     else
       returned ← heal_owners namespace (list_items (pod_owner_references pod));
       match returned with
       | Some b => ret b
       | None =>
           logger WARNING ("Could not find deployment for pod " +:+ pod_name);;
           ret false
       end)
    (fun e =>
       logger ERROR ("Failed to heal pod " +:+ pod_name +:+ ": " +:+ e);;
       HEAL_ERRORS_inc "api_error";;
       ret false).

(** [for pod_info in pods] of [run_healing_cycle]. *)
Fixpoint heal_pods (namespace : string) (pods : list pod_info) (healed_count : nat)
  : M nat :=
  match pods with
  | [] => ret healed_count
  | pod_info :: rest =>
      logger INFO ("Pod " +:+ info_name pod_info +:+ " in " +:+ namespace +:+ " has "
                   +:+ pretty (info_restart_count pod_info)
                   +:+ " restarts (threshold: " +:+ pretty restart_threshold +:+ ")");;
      healed ← heal_deployment pod_info;
      if healed then
        sleep 2;;
        heal_pods namespace rest (S healed_count)
      else heal_pods namespace rest healed_count
  end.

(** [for namespace, pods in unhealthy_pods.items()] of [run_healing_cycle]. *)
Fixpoint heal_namespaces (items : list (string * list pod_info)) (healed_count : nat)
  : M nat :=
  match items with
  | [] => ret healed_count
  | (namespace, pods) :: rest =>
      healed_count ← heal_pods namespace pods healed_count;
      heal_namespaces rest healed_count
  end.

Definition run_healing_cycle : M unit :=
  logger INFO "Starting auto-healer cycle";;
  try_except_Exception
    (unhealthy_pods ← get_unhealthy_pods None;
     let total_unhealthy := list_sum (map (fun kv => length (snd kv)) unhealthy_pods) in
     UNHEALTHY_PODS_set (Z.of_nat total_unhealthy);;
     match unhealthy_pods with
     | [] => logger INFO "No unhealthy pods found"
     | _ :: _ =>
         logger INFO ("Found " +:+ pretty total_unhealthy +:+ " unhealthy pods across "
                      +:+ pretty (length unhealthy_pods) +:+ " namespaces");;
         healed_count ← heal_namespaces unhealthy_pods 0%nat;
         logger INFO ("Healing cycle completed. Healed " +:+ pretty healed_count
                      +:+ " deployments")
     end)
    (fun e =>
       logger ERROR ("Healing cycle failed: " +:+ e);;
       HEAL_ERRORS_inc "cycle_error").

End AutoHealerService.

(** * Specification-level definitions *)

Open Scope list_scope.

(** The largest restart count of a list of containers, 0 for none. *)
Definition max_restart (cs : list V1ContainerStatus) : Z :=
  fold_right Z.max 0 (map restart_count cs).

(** The sum of the restart counts. *)
Definition sum_restart (cs : list V1ContainerStatus) : Z :=
  fold_right Z.add 0 (map restart_count cs).

(** Restart counts are counts: the cluster never reports a negative one. *)
Definition nonneg_counts (cs : list V1ContainerStatus) : Prop :=
  Forall (fun c => 0 <= restart_count c) cs.

(** ** Example clusters *)

Definition container (name : string) (restarts : Z) : V1ContainerStatus :=
  {| container_name := name; restart_count := restarts;
     image := "registry.local/" +:+ name +:+ ":1"; ready := true;
     last_termination_time := None |}.

Definition owner (k name : string) : V1OwnerReference :=
  {| kind := k; owner_name := name |}.

Definition lookup_named {A} (table : list (string * string * A)) (name namespace : string)
  : result A :=
  match List.find (fun e => String.eqb (snd (fst e)) name
                            && String.eqb (fst (fst e)) namespace) table with
  | Some e => Ok (snd e)
  | None => Raise (ApiException "(404) Not Found")
  end.

Definition in_namespace {A} (table : list (string * string * A)) (namespace : string)
  : list A :=
  map snd (List.filter (fun e => String.eqb (fst (fst e)) namespace) table).

(** A cluster that does not change while the process runs: tables of
    (namespace, name, object), and the names of the deployments whose
    patch is rejected. *)
Definition still_cluster
    (pods : list (string * string * V1Pod))
    (replica_sets : list (string * string * V1ReplicaSet))
    (deployments : list (string * string * V1Deployment))
    (rejected : list string) : World :=
  {| list_namespaced_pod := fun _ ns => Ok (in_namespace pods ns);
     read_namespaced_pod := fun _ n ns => lookup_named pods n ns;
     read_namespaced_replica_set := fun _ n ns => lookup_named replica_sets n ns;
     list_namespaced_deployment := fun _ ns => Ok (in_namespace deployments ns);
     patch_namespaced_deployment := fun _ n ns _ =>
       if existsb (String.eqb n) rejected
       then Raise (ApiException "(409) Conflict")
       else Ok tt;
     utcnow := fun _ => "2024-01-01T12:00:00+00:00" |}.

(** A pod with containers restarted 2 and 7 times, and one with no
    container statuses yet. *)
Definition two_containers : V1Pod :=
  {| pod_name := "web-1"; pod_owner_references := None; phase := Some "Running";
     container_statuses := Some [container "app" 2; container "sidecar" 7] |}.

Definition no_statuses : V1Pod :=
  {| pod_name := "idle-1"; pod_owner_references := None; phase := Some "Pending";
     container_statuses := None |}.

Definition restart_cluster : World :=
  still_cluster [("portal", "web-1", two_containers); ("portal", "idle-1", no_statuses)]
                [] [] [].

(** ** Namespace summaries *)

(** The phase is one of the three the summary has a bucket for. *)
Definition phase_bucketed (pod : V1Pod) : bool :=
  phase_is pod "Running" || phase_is pod "Pending" || phase_is pod "Failed".

(** Some container of the pod has restarted 3 times or more. *)
Definition has_restarting_container (pod : V1Pod) : bool :=
  existsb (fun c => restart_count c >=? 3) (list_items (container_statuses pod)).

Definition count_if {A} (f : A -> bool) (l : list A) : nat :=
  length (List.filter f l).

Definition pod_in_phase (name p : string) (restarts : list Z) : V1Pod :=
  {| pod_name := name; pod_owner_references := None; phase := Some p;
     container_statuses :=
       Some (map (fun r => container "app" r) restarts) |}.

Definition deployment (spec_replicas status_ready : option Z) : V1Deployment :=
  {| replicas := spec_replicas; ready_replicas := status_ready |}.

(** Two running pods with restart counts 1 and 5, and one deployment with
    2 of 2 replicas ready. *)
Definition test_namespace : World :=
  still_cluster
    [("test-namespace", "pod1", pod_in_phase "pod1" "Running" [1]);
     ("test-namespace", "pod2", pod_in_phase "pod2" "Running" [5])]
    []
    [("test-namespace", "api", deployment (Some 2) (Some 2))]
    [].

(** A finished job pod next to a running pod whose two containers both
    keep restarting. *)
Definition batch_namespace : World :=
  still_cluster
    [("batch", "job-1", pod_in_phase "job-1" "Succeeded" [0]);
     ("batch", "worker-1", pod_in_phase "worker-1" "Running" [4; 6])]
    [] [] [].

(** Deployments scaled to zero: with the ready count reported as 0, and
    with the ready count left out. *)
Definition scaled_down_namespace : World :=
  still_cluster []
    []
    [("staging", "parked", deployment (Some 0) (Some 0));
     ("staging", "parked-2", deployment (Some 0) None)]
    [].

(** The counters both loops of the summary start from. *)
Definition no_pods : pod_counts :=
  {| total := 0; running := 0; pending := 0; failed := 0; unhealthy := 0 |}.

Definition no_deployments : deployment_counts :=
  {| deployments_total := 0; deployments_ready := 0 |}.

Definition b2n (b : bool) : nat := if b then 1 else 0.

(** ** Ownership resolution and remediation *)

(** The state with its interaction history replaced. *)
Definition with_trace (h : list event) (s : state) : state :=
  {| HEAL_ACTIONS := HEAL_ACTIONS s; UNHEALTHY_PODS := UNHEALTHY_PODS s;
     HEAL_ERRORS := HEAL_ERRORS s; trace := h; log := log s |}.

(** Why a pod was skipped. *)
Inductive SkipReason := no_owner | no_deployment_found.

(** Outcome of walking Pod -> ReplicaSet -> Deployment: the deployment to
    act on, a skip, or a read that raised. *)
Inductive Resolution :=
| DeploymentRef (name namespace : string)
| Skip (reason : SkipReason)
| Unreadable (e : exn).

(** The first owner of kind Deployment among the owners of a ReplicaSet. *)
Fixpoint first_deployment (rs_owners : list V1OwnerReference) : option string :=
  match rs_owners with
  | [] => None
  | o :: rest =>
      if String.eqb (kind o) "Deployment" then Some (owner_name o)
      else first_deployment rest
  end.

(** Resolution as the design describes it: each owner of kind ReplicaSet
    is read in turn, and the first Deployment among the owners of a
    ReplicaSet read is the answer, in the namespace of the pod.  The second
    component is the interaction history afterwards. *)
Fixpoint resolve_owners (w : World) (namespace : string) (h : list event)
    (owners : list V1OwnerReference) : Resolution * list event :=
  match owners with
  | [] => (Skip no_deployment_found, h)
  | o :: rest =>
      if String.eqb (kind o) "ReplicaSet" then
        match read_namespaced_replica_set w h (owner_name o) namespace with
        | Ok rs =>
            let h' := (h ++ [Call (ReadReplicaSet (owner_name o) namespace) true])%list in
            match first_deployment (list_items (rs_owner_references rs)) with
            | Some d => (DeploymentRef d namespace, h')
            | None => resolve_owners w namespace h' rest
            end
        | Raise e =>
            (Unreadable e, (h ++ [Call (ReadReplicaSet (owner_name o) namespace) false])%list)
        end
      else resolve_owners w namespace h rest
  end.

Definition resolveDeployment (w : World) (pod_name namespace : string) (h : list event)
  : Resolution * list event :=
  match read_namespaced_pod w h pod_name namespace with
  | Ok pod =>
      let h' := (h ++ [Call (ReadPod pod_name namespace) true])%list in
      if list_truthy (pod_owner_references pod)
      then resolve_owners w namespace h' (list_items (pod_owner_references pod))
      else (Skip no_owner, h')
  | Raise e => (Unreadable e, (h ++ [Call (ReadPod pod_name namespace) false])%list)
  end.

(** The block of [heal_deployment] guarded by [rs_owner.kind == 'Deployment'],
    as a computation of the value it returns. *)
Definition remediate (w : World) (dry_run : bool) (namespace deployment_name : string)
  : M bool :=
  logger INFO ("Healing deployment " +:+ deployment_name +:+ " in " +:+ namespace);;
  if dry_run then
    logger INFO ("DRY RUN: Would restart deployment " +:+ deployment_name);;
    HEAL_ACTIONS_inc "dry_run_restart" namespace deployment_name;;
    ret true
  else
    success ← restart_deployment w deployment_name namespace;
    if success then
      HEAL_ACTIONS_inc "restart" namespace deployment_name;;
      logger INFO ("Successfully triggered restart for " +:+ deployment_name);;
      ret true
    else
      HEAL_ERRORS_inc "patch_failed";;
      ret false.

(** An answer that is a value or an [ApiException]. *)
Definition value_or_ApiException {A} (r : result A) : Prop :=
  match r with
  | Raise (Exception _) => False
  | _ => True
  end.

(** A cluster client whose every failure is an [ApiException]. *)
Definition raises_only_ApiException (w : World) : Prop :=
  (forall h ns, value_or_ApiException (list_namespaced_pod w h ns)) /\
  (forall h n ns, value_or_ApiException (read_namespaced_pod w h n ns)) /\
  (forall h n ns, value_or_ApiException (read_namespaced_replica_set w h n ns)) /\
  (forall h ns, value_or_ApiException (list_namespaced_deployment w h ns)) /\
  (forall h n ns body, value_or_ApiException (patch_namespaced_deployment w h n ns body)).

(** The errors counted against remediations. *)
Definition remediation_errors (s : state) : nat :=
  (counter (HEAL_ERRORS s) "api_error" + counter (HEAL_ERRORS s) "patch_failed")%nat.

(** The key a record is remediated under. *)
Definition record_key (r : pod_info) : string * string :=
  (info_name r, info_namespace r).

(** A pod owned through ReplicaSet rs-1 by Deployment app-1, with other
    owners before and after on both hops; a pod without owners; and a pod
    whose ReplicaSet has no Deployment above it. *)
Definition owned_pod : V1Pod :=
  {| pod_name := "app-1-7d4b9-x2x"; phase := Some "Running";
     pod_owner_references :=
       Some [owner "Node" "node-a"; owner "ReplicaSet" "rs-1"; owner "ReplicaSet" "rs-2"];
     container_statuses := Some [container "app" 5] |}.

Definition orphan_pod : V1Pod :=
  {| pod_name := "orphan-1"; phase := Some "Running";
     pod_owner_references := None;
     container_statuses := Some [container "app" 5] |}.

Definition stray_pod : V1Pod :=
  {| pod_name := "stray-1"; phase := Some "Running";
     pod_owner_references := Some [owner "ReplicaSet" "stray-rs"];
     container_statuses := Some [container "app" 5] |}.

Definition rs_1 : V1ReplicaSet :=
  {| rs_owner_references :=
       Some [owner "Rollout" "canary"; owner "Deployment" "app-1";
             owner "Deployment" "app-2"] |}.

Definition rs_2 : V1ReplicaSet :=
  {| rs_owner_references := Some [owner "Deployment" "app-3"] |}.

Definition stray_rs : V1ReplicaSet :=
  {| rs_owner_references := None |}.

Definition ownership_cluster : World :=
  still_cluster
    [("portal", "app-1-7d4b9-x2x", owned_pod);
     ("portal", "orphan-1", orphan_pod);
     ("portal", "stray-1", stray_pod)]
    [("portal", "rs-1", rs_1); ("portal", "rs-2", rs_2); ("portal", "stray-rs", stray_rs)]
    [] [].

(** The record [get_unhealthy_pods] makes for the first container of a pod. *)
Definition record_of (namespace : string) (pod : V1Pod) : pod_info :=
  {| info_name := pod_name pod; info_namespace := namespace;
     info_restart_count := 5; info_container := "app";
     info_image := "registry.local/app:1"; info_ready := true;
     info_last_restart := None |}.

(** Five pods, each under its own ReplicaSet and Deployment; the patch of
    the third deployment is rejected. *)
Definition member (i : string) : V1Pod :=
  {| pod_name := "pod-" +:+ i; phase := Some "Running";
     pod_owner_references := Some [owner "ReplicaSet" ("rs-" +:+ i)];
     container_statuses := Some [container "app" 5] |}.

Definition member_rs (i : string) : V1ReplicaSet :=
  {| rs_owner_references := Some [owner "Deployment" ("deploy-" +:+ i)] |}.

Definition batch_of_five : World :=
  still_cluster
    (map (fun i => ("portal", "pod-" +:+ i, member i)) ["1"; "2"; "3"; "4"; "5"])
    (map (fun i => ("portal", "rs-" +:+ i, member_rs i)) ["1"; "2"; "3"; "4"; "5"])
    [] ["deploy-3"].

Definition five_records : list pod_info :=
  map (fun i => record_of "portal" (member i)) ["1"; "2"; "3"; "4"; "5"].

(** One pod whose two containers are both at or above a threshold of 3,
    owned through ReplicaSet web-rs by Deployment web. *)
Definition crashing_pod : V1Pod :=
  {| pod_name := "web-1"; phase := Some "Running";
     pod_owner_references := Some [owner "ReplicaSet" "web-rs"];
     container_statuses := Some [container "app" 5; container "sidecar" 4] |}.

Definition crashloop_cluster : World :=
  still_cluster
    [("portal", "web-1", crashing_pod)]
    [("portal", "web-rs", {| rs_owner_references := Some [owner "Deployment" "web"] |})]
    [] [].

(** The cluster of [crashloop_cluster] behind a connection that drops when
    the pod is read: the client raises an error that is not an
    [ApiException]. *)
Definition dropped_connection : World :=
  {| list_namespaced_pod := list_namespaced_pod crashloop_cluster;
     read_namespaced_pod := fun _ _ _ => Raise (Exception "Connection refused");
     read_namespaced_replica_set := read_namespaced_replica_set crashloop_cluster;
     list_namespaced_deployment := list_namespaced_deployment crashloop_cluster;
     patch_namespaced_deployment := patch_namespaced_deployment crashloop_cluster;
     utcnow := utcnow crashloop_cluster |}.

(** * The pod health status (PodRestartHealer.get_pod_health_status) *)

(** Dictionaries built at run time, whose keys depend on the data, are
    association lists from keys to values of the few Python types that
    occur in them. *)
#[warnings="-register-all"] Inductive pyval :=
| PyNone
| PyBool (b : bool)
| PyInt (z : Z)
| PyStr (s : string)
| PyList (l : list pyval)
| PyDict (d : list (string * pyval)).

(** [d.get(k)] *)
Fixpoint dict_get {V} (d : list (string * V)) (k : string) : option V :=
  match d with
  | [] => None
  | (k', v) :: d' => if String.eqb k' k then Some v else dict_get d' k
  end.

Definition py_opt_bool (o : option bool) : pyval :=
  match o with Some b => PyBool b | None => PyNone end.

Definition py_opt_str (o : option string) : pyval :=
  match o with Some s => PyStr s | None => PyNone end.

(** The state of a container: at most one of the three is normally set. *)
Record V1ContainerStateRunning := { started_at : option string }.
Record V1ContainerStateWaiting := { waiting_reason : option string }.
Record V1ContainerStateTerminated := { terminated_reason : option string }.

Record V1ContainerState := {
  state_running : option V1ContainerStateRunning;
  state_waiting : option V1ContainerStateWaiting;
  state_terminated : option V1ContainerStateTerminated
}.

Section PodHealthStatus.

Variable w : World.

(** The two attributes of a container status that only
    [get_pod_health_status] reads, [container.started] and
    [container.state], through their accessors. *)
Variable started : V1ContainerStatus -> option bool.
Variable state : V1ContainerStatus -> option V1ContainerState.

(** The dictionary [container_info] of one container: five fixed keys,
    then the state keys by the [if]/[elif] chain. *)
Definition container_info (container : V1ContainerStatus) : list (string * pyval) :=
  let container_info :=
    [("name", PyStr (container_name container));
     ("ready", PyBool (ready container));
     ("restart_count", PyInt (restart_count container));
     ("image", PyStr (image container));
     ("started", py_opt_bool (started container))] in
  match state container with
  | Some st =>
      match state_running st with
      | Some running =>
          let container_info := dict_setitem container_info "state" (PyStr "running") in
          dict_setitem container_info "started_at" (py_opt_str (started_at running))
      | None =>
          match state_waiting st with
          | Some waiting =>
              let container_info := dict_setitem container_info "state" (PyStr "waiting") in
              dict_setitem container_info "reason" (py_opt_str (waiting_reason waiting))
          | None =>
              match state_terminated st with
              | Some terminated =>
                  let container_info :=
                    dict_setitem container_info "state" (PyStr "terminated") in
                  dict_setitem container_info "reason"
                               (py_opt_str (terminated_reason terminated))
              | None => container_info
              end
          end
      end
  | None => container_info
  end.

(** The loop over the container statuses: the list under ['containers'],
    [all_ready] and [max_restarts]. *)
Fixpoint health_loop (cs : list V1ContainerStatus)
    (containers : list pyval) (all_ready : bool) (max_restarts : Z)
  : list pyval * bool * Z :=
  match cs with
  | [] => (containers, all_ready, max_restarts)
  | container :: rest =>
      health_loop rest
        (containers ++ [PyDict (container_info container)])
        (if negb (ready container) then false else all_ready)
        (if restart_count container >? max_restarts
         then restart_count container
         else max_restarts)
  end.

Definition get_pod_health_status (pod_name namespace : string)
  : M (list (string * pyval)) :=
  try_except_ApiException
    (pod ← call (fun h => read_namespaced_pod w h pod_name namespace)
                (ReadPod pod_name namespace);
     let status :=
       [("name", PyStr pod_name);
        ("namespace", PyStr namespace);
        ("phase", py_opt_str (phase pod));
        ("ready", PyBool false);
        ("restart_count", PyInt 0);
        ("containers", PyList [])] in
     if list_truthy (container_statuses pod) then
       let '(containers, all_ready, max_restarts) :=
         health_loop (list_items (container_statuses pod)) [] true 0 in
       let status := dict_setitem status "containers" (PyList containers) in
       let status := dict_setitem status "ready" (PyBool all_ready) in
       let status := dict_setitem status "restart_count" (PyInt max_restarts) in
       ret status
     else ret status)
    (fun e =>
       logger ERROR ("Failed to get health status for pod " +:+ pod_name +:+ ": " +:+ e);;
       ret [("name", PyStr pod_name);
            ("namespace", PyStr namespace);
            ("error", PyStr e)]).

End PodHealthStatus.

(** * Further specification-level definitions *)

(** The record [get_unhealthy_pods] appends for a container of a pod. *)
Definition record_for (namespace : string) (pod : V1Pod) (container : V1ContainerStatus)
  : pod_info :=
  {| info_name := pod_name pod;
     info_namespace := namespace;
     info_restart_count := restart_count container;
     info_container := container_name container;
     info_image := image container;
     info_ready := ready container;
     info_last_restart := last_termination_time container |}.

(** The containers at or above a threshold. *)
Definition at_or_above (threshold : Z) (cs : list V1ContainerStatus)
  : list V1ContainerStatus :=
  List.filter (fun c => restart_count c >=? threshold) cs.

Definition records_of_pod (threshold : Z) (namespace : string) (pod : V1Pod)
  : list pod_info :=
  map (record_for namespace pod) (at_or_above threshold (list_items (container_statuses pod))).

(** [bool(l)] for a list. *)
Definition nonempty {A} (l : list A) : bool :=
  match l with [] => false | _ :: _ => true end.

(** The namespaces whose pods were listed, in order. *)
Fixpoint listed (tr : list event) : list string :=
  match tr with
  | [] => []
  | Call (ListPods ns) _ :: tr' => ns :: listed tr'
  | _ :: tr' => listed tr'
  end.

Definition is_list_pods (ev : event) : bool :=
  match ev with
  | Call (ListPods _) _ => true
  | _ => false
  end.

(** The sleeps taken, in order. *)
Fixpoint sleeps (tr : list event) : list Z :=
  match tr with
  | [] => []
  | Sleep n :: tr' => n :: sleeps tr'
  | _ :: tr' => sleeps tr'
  end.

(** A patch that was accepted. *)
Definition is_accepted_patch (ev : event) : bool :=
  match ev with
  | Call (PatchDeployment _ _ _) true => true
  | _ => false
  end.

(** The number of records in a dictionary of unhealthy pods. *)
Definition records_in (d : list (string * list pod_info)) : list pod_info :=
  concat (map snd d).

(** ** More example clusters *)

(** The namespaces of [crashloop_cluster] when listing [hrt-sre] is
    refused. *)
Definition forbidden_namespace : World :=
  {| list_namespaced_pod := fun h ns =>
       if String.eqb ns "hrt-sre" then Raise (ApiException "(403) Forbidden")
       else list_namespaced_pod crashloop_cluster h ns;
     read_namespaced_pod := read_namespaced_pod crashloop_cluster;
     read_namespaced_replica_set := read_namespaced_replica_set crashloop_cluster;
     list_namespaced_deployment := fun h ns =>
       if String.eqb ns "portal" then Raise (ApiException "(403) Forbidden")
       else list_namespaced_deployment crashloop_cluster h ns;
     patch_namespaced_deployment := patch_namespaced_deployment crashloop_cluster;
     utcnow := utcnow crashloop_cluster |}.

(** A cluster where nothing has restarted. *)
Definition calm_cluster : World :=
  still_cluster
    [("portal", "web-1", pod_in_phase "web-1" "Running" [0; 1]);
     ("hrt-sre", "cron-1", pod_in_phase "cron-1" "Succeeded" [0])]
    [] [] [].

(** Container states for the examples: the first container runs, the
    second waits in a crash loop although a terminated state is also
    reported. *)
Definition example_started (c : V1ContainerStatus) : option bool :=
  if String.eqb (container_name c) "app" then Some true else Some false.

Definition example_state (c : V1ContainerStatus) : option V1ContainerState :=
  if String.eqb (container_name c) "app" then
    Some {| state_running := Some {| started_at := Some "2024-01-01T11:00:00+00:00" |};
            state_waiting := None; state_terminated := None |}
  else
    Some {| state_running := None;
            state_waiting := Some {| waiting_reason := Some "CrashLoopBackOff" |};
            state_terminated := Some {| terminated_reason := Some "Error" |} |}.

(** A read of a pod or of a ReplicaSet. *)
Definition is_read (ev : event) : bool :=
  match ev with
  | Call (ReadPod _ _) _ | Call (ReadReplicaSet _ _) _ => true
  | _ => false
  end.

(** What holds of every dictionary of unhealthy pods: no key twice, no
    empty value, and under a key only records of that namespace at or above
    the threshold. *)
Definition unhealthy_dict (threshold : Z) (d : list (string * list pod_info)) : Prop :=
  NoDup (map fst d) /\
  forall k v, In (k, v) d ->
    v <> [] /\
    forall r, In r v -> info_namespace r = k /\ threshold <= info_restart_count r.

(** The namespaces [get_unhealthy_pods] scans. *)
Definition namespaces_scanned (namespaces : option (list string)) : list string :=
  match namespaces with
  | None => ["portal"; "hrt-sre"]
  | Some l => l
  end.

(** The state after [UNHEALTHY_PODS.set(v)]. *)
Definition gauge_set (v : Z) (s : state) : state :=
  {| HEAL_ACTIONS := HEAL_ACTIONS s; UNHEALTHY_PODS := v;
     HEAL_ERRORS := HEAL_ERRORS s; trace := trace s; log := log s |}.

(** No child of a labelled counter has gone down. *)
Definition counters_grow {K} `{Countable K} (m m' : gmap K nat) : Prop :=
  forall k, (counter m k <= counter m' k)%nat.

(** Neither family of counters has gone down between two states. *)
Definition metrics_grow (s s' : state) : Prop :=
  counters_grow (HEAL_ACTIONS s) (HEAL_ACTIONS s') /\
  counters_grow (HEAL_ERRORS s) (HEAL_ERRORS s').
(** * Properties *)

(** ** Restart counts (PodRestartHealer) *)

Lemma max_restart_nonneg cs : 0 <= max_restart cs.
Proof. induction cs as [|c cs IH]; cbn; [lia|]. fold (max_restart cs). lia. Qed.

Lemma max_restarts_loop_spec cs m :
  0 <= m -> max_restarts_loop cs m = Z.max m (max_restart cs).
Proof.
  revert m. induction cs as [|c cs IH]; intros m Hm; cbn.
  - lia.
  - fold (max_restart cs). rewrite Z.gtb_ltb.
    destruct (Z.ltb_spec m (restart_count c)); rewrite IH; lia.
Qed.

Lemma max_restart_upper cs c : In c cs -> restart_count c <= max_restart cs.
Proof.
  induction cs as [|c' cs IH]; cbn; [tauto|]. fold (max_restart cs).
  intros [->|H]; [lia|]. specialize (IH H). lia.
Qed.

Lemma max_restart_attained cs :
  nonneg_counts cs -> cs <> [] ->
  exists k c, cs !! k = Some c /\ restart_count c = max_restart cs.
Proof.
  induction cs as [|c cs IH]; [congruence|]. intros Hnn _.
  inversion Hnn as [|? ? Hc Hcs]; subst. cbn. fold (max_restart cs).
  destruct (Z.max_spec (restart_count c) (max_restart cs)) as [[Hlt ->]|[Hle ->]].
  - destruct cs as [|c' cs'].
    + cbn in Hlt. lia.
    + destruct IH as (k & c0 & Hk & E); [assumption|congruence|].
      exists (S k), c0. now split.
  - exists 0%nat, c. now split.
Qed.

Lemma restart_le_sum cs k c :
  nonneg_counts cs -> cs !! k = Some c -> restart_count c <= sum_restart cs.
Proof.
  revert k. induction cs as [|c' cs IH]; intros k Hnn Hk; [discriminate|].
  inversion Hnn as [|? ? Hc Hcs]; subst. cbn. fold (sum_restart cs).
  assert (0 <= sum_restart cs).
  { clear -Hcs. induction Hcs; cbn; [lia|]. fold (sum_restart l). lia. }
  destruct k as [|k]; cbn in Hk.
  - injection Hk as ->. lia.
  - specialize (IH k Hcs Hk). lia.
Qed.

Lemma two_restarts_le_sum cs i j ci cj :
  nonneg_counts cs -> i <> j -> cs !! i = Some ci -> cs !! j = Some cj ->
  restart_count ci + restart_count cj <= sum_restart cs.
Proof.
  revert i j. induction cs as [|c cs IH]; intros i j Hnn Hij Hi Hj; [discriminate|].
  inversion Hnn as [|? ? Hc Hcs]; subst. cbn. fold (sum_restart cs).
  destruct i as [|i], j as [|j]; cbn in Hi, Hj.
  - congruence.
  - injection Hi as ->. pose proof (restart_le_sum cs j cj Hcs Hj). lia.
  - injection Hj as ->. pose proof (restart_le_sum cs i ci Hcs Hi). lia.
  - assert (i <> j) by congruence. specialize (IH i j Hcs H Hi Hj). lia.
Qed.

(** What [get_pod_restart_count] does on each answer to its read. *)
Lemma get_pod_restart_count_run w n ns s :
  get_pod_restart_count w n ns s =
  match read_namespaced_pod w (trace s) n ns with
  | Ok pod =>
      (Ok (if list_truthy (container_statuses pod)
           then max_restarts_loop (list_items (container_statuses pod)) 0
           else 0),
       emit (Call (ReadPod n ns) true) s)
  | Raise (ApiException e) =>
      (Ok 0,
       logged ERROR ("Failed to get restart count for pod " +:+ n +:+ ": " +:+ e)
              (emit (Call (ReadPod n ns) false) s))
  | Raise (Exception e) => (Raise (Exception e), emit (Call (ReadPod n ns) false) s)
  end.
Proof.
  unfold get_pod_restart_count, try_except_ApiException, bind, call.
  destruct (read_namespaced_pod w (trace s) n ns) as [pod|[e|e]]; cbn; try reflexivity.
  now destruct (list_truthy (container_statuses pod)).
Qed.

Lemma get_pod_restart_count_value w n ns s pod :
  read_namespaced_pod w (trace s) n ns = Ok pod ->
  fst (get_pod_restart_count w n ns s)
  = Ok (max_restart (list_items (container_statuses pod))).
Proof.
  intros E. rewrite get_pod_restart_count_run, E. cbn [fst].
  rewrite max_restarts_loop_spec by lia.
  pose proof (max_restart_nonneg (list_items (container_statuses pod))).
  destruct (container_statuses pod) as [[|c cs]|]; cbn [list_truthy list_items] in *;
    try reflexivity.
  f_equal. lia.
Qed.

(** C2, as the code has it.  [get_pod_restart_count] returns 0 when the
    read of the pod raises an [ApiException], the one class its handler
    catches, and when the container-status list is [None] or empty;
    otherwise it returns the maximum of the restart counts, which bounds
    every container's count, is the count of one of them, and is strictly
    below the sum as soon as two containers have restarted.  A read that
    fails with an exception of another class is not turned into 0: the
    exception reaches the caller. *)
Theorem get_pod_restart_count_is_max w n ns s :
  (forall e, read_namespaced_pod w (trace s) n ns = Raise (ApiException e) ->
     fst (get_pod_restart_count w n ns s) = Ok 0) /\
  (forall pod, read_namespaced_pod w (trace s) n ns = Ok pod ->
     list_truthy (container_statuses pod) = false ->
     fst (get_pod_restart_count w n ns s) = Ok 0) /\
  (forall pod cs, read_namespaced_pod w (trace s) n ns = Ok pod ->
     container_statuses pod = Some cs -> nonneg_counts cs ->
     fst (get_pod_restart_count w n ns s) = Ok (max_restart cs) /\
     (forall c, In c cs -> restart_count c <= max_restart cs) /\
     (cs <> [] -> exists c, In c cs /\ restart_count c = max_restart cs) /\
     (forall i j ci cj, i <> j -> cs !! i = Some ci -> cs !! j = Some cj ->
        0 < restart_count ci -> 0 < restart_count cj ->
        max_restart cs < sum_restart cs)) /\
  (forall e, read_namespaced_pod w (trace s) n ns = Raise (Exception e) ->
     fst (get_pod_restart_count w n ns s) = Raise (Exception e)).
Proof.
  split; [|split; [|split]].
  - intros e E. rewrite get_pod_restart_count_run, E. reflexivity.
  - intros pod E Hf. rewrite get_pod_restart_count_run, E. cbn. now rewrite Hf.
  - intros pod cs E Hcs Hnn.
    split; [|split; [|split]].
    + rewrite (get_pod_restart_count_value w n ns s pod E), Hcs. reflexivity.
    + apply max_restart_upper.
    + intros Hne. destruct (max_restart_attained cs Hnn Hne) as (k & c & Hk & Hc).
      exists c. split; [|assumption].
      apply list_elem_of_In, list_elem_of_lookup. eauto.
    + intros i j ci cj Hij Hi Hj Hpi Hpj.
      assert (Hne : cs <> []) by (intros ->; discriminate).
      destruct (max_restart_attained cs Hnn Hne) as (k & c & Hk & <-).
      destruct (Nat.eq_dec k i) as [->|Hki].
      * assert (c = ci) as -> by congruence.
        pose proof (two_restarts_le_sum cs i j ci cj Hnn Hij Hk Hj). lia.
      * pose proof (two_restarts_le_sum cs k i c ci Hnn Hki Hk Hi). lia.
  - intros e E. rewrite get_pod_restart_count_run, E. reflexivity.
Qed.

Lemma get_pod_restart_count_is_max_witness :
  fst (get_pod_restart_count restart_cluster "web-1" "portal" initial_state) = Ok 7
  /\ 7 < sum_restart [container "app" 2; container "sidecar" 7].
Proof.
  destruct (get_pod_restart_count_is_max restart_cluster "web-1" "portal" initial_state)
    as (_ & _ & H & _).
  destruct (H two_containers [container "app" 2; container "sidecar" 7]
              eq_refl eq_refl) as (E & _ & _ & Hsum).
  { repeat constructor; cbn; lia. }
  split; [exact E|].
  apply (Hsum 0%nat 1%nat (container "app" 2) (container "sidecar" 7));
    [lia|reflexivity|reflexivity|cbn; lia|cbn; lia].
Defined.

(** C2, counterexample.  Behind a connection that drops, the pod cannot be
    read, the client raising an error that is not an [ApiException];
    [get_pod_restart_count] then raises that error instead of returning
    0. *)
Lemma unreadable_pod_is_not_always_zero :
  read_namespaced_pod dropped_connection (trace initial_state) "web-1" "portal"
  = Raise (Exception "Connection refused") /\
  fst (get_pod_restart_count dropped_connection "web-1" "portal" initial_state)
  = Raise (Exception "Connection refused") /\
  fst (get_pod_restart_count dropped_connection "web-1" "portal" initial_state) <> Ok 0.
Proof. split; [reflexivity|]. split; [reflexivity|discriminate]. Qed.

(** C3, as the code has it.  A pod with no container statuses has restart
    count 0; [is_pod_unhealthy] compares that 0 with the threshold, so the
    pod is healthy for every threshold of 1 or more and unhealthy at
    threshold 0 (and below). *)
Theorem no_statuses_restart_count_zero w threshold n ns s pod :
  read_namespaced_pod w (trace s) n ns = Ok pod ->
  list_truthy (container_statuses pod) = false ->
  fst (get_pod_restart_count w n ns s) = Ok 0 /\
  (0 < threshold -> fst (is_pod_unhealthy w threshold n ns s) = Ok false) /\
  (threshold <= 0 -> fst (is_pod_unhealthy w threshold n ns s) = Ok true).
Proof.
  intros E Hf.
  assert (R : get_pod_restart_count w n ns s = (Ok 0, emit (Call (ReadPod n ns) true) s)).
  { rewrite get_pod_restart_count_run, E, Hf. reflexivity. }
  split; [now rewrite R|].
  unfold is_pod_unhealthy, bind. rewrite R. cbn. rewrite Z.geb_leb.
  split; intros H.
  - destruct (Z.leb_spec threshold 0); [lia|reflexivity].
  - destruct (Z.leb_spec threshold 0); [reflexivity|lia].
Qed.

Lemma no_statuses_restart_count_zero_witness :
  fst (get_pod_restart_count restart_cluster "idle-1" "portal" initial_state) = Ok 0 /\
  fst (is_pod_unhealthy restart_cluster 3 "idle-1" "portal" initial_state) = Ok false.
Proof.
  destruct (no_statuses_restart_count_zero restart_cluster 3 "idle-1" "portal"
              initial_state no_statuses eq_refl eq_refl) as (E & H & _).
  split; [exact E|]. apply H. lia.
Defined.

(** C3, counterexample.  At threshold 0 the pod without container statuses
    has restart count 0 and is reported unhealthy. *)
Lemma no_statuses_unhealthy_at_threshold_zero :
  container_statuses no_statuses = None /\
  0 <= 0 /\
  fst (get_pod_restart_count restart_cluster "idle-1" "portal" initial_state) = Ok 0 /\
  fst (is_pod_unhealthy restart_cluster 0 "idle-1" "portal" initial_state) = Ok true.
Proof. split; [reflexivity|]. split; [lia|]. split; reflexivity. Qed.

(** ** Namespace summaries (NamespaceHealthChecker) *)

Lemma count_if_cons {A} (f : A -> bool) x l :
  count_if f (x :: l) = (b2n (f x) + count_if f l)%nat.
Proof. unfold count_if. cbn. now destruct (f x). Qed.

Lemma count_if_le {A} (f : A -> bool) l : (count_if f l <= length l)%nat.
Proof.
  induction l as [|x l IH]; [reflexivity|].
  rewrite count_if_cons. cbn [length]. destruct (f x); cbn; lia.
Qed.

(** The container loop adds one to [unhealthy] exactly when some container
    has 3 restarts or more, and touches nothing else. *)
Lemma count_restarts_spec cs c :
  count_restarts cs c =
  {| total := total c; running := running c; pending := pending c;
     failed := failed c;
     unhealthy := unhealthy c + b2n (existsb (fun k => restart_count k >=? 3) cs) |}.
Proof.
  induction cs as [|k cs IH]; cbn.
  - destruct c; cbn. f_equal. lia.
  - destruct (restart_count k >=? 3); cbn.
    + f_equal. lia.
    + exact IH.
Qed.

Lemma phase_is_exclusive pod p q :
  p <> q -> phase_is pod p = true -> phase_is pod q = false.
Proof.
  unfold phase_is. destruct (phase pod) as [x|]; [|discriminate].
  intros Hpq Hp. apply String.eqb_eq in Hp. subst x.
  now apply String.eqb_neq.
Qed.

(** One pass of the pod loop, field by field. *)
Lemma count_pod_spec c pod :
  total (count_pod c pod) = S (total c) /\
  running (count_pod c pod) = (running c + b2n (phase_is pod "Running"))%nat /\
  pending (count_pod c pod) = (pending c + b2n (phase_is pod "Pending"))%nat /\
  failed (count_pod c pod) = (failed c + b2n (phase_is pod "Failed"))%nat /\
  unhealthy (count_pod c pod) = (unhealthy c + b2n (has_restarting_container pod))%nat.
Proof.
  unfold count_pod, has_restarting_container.
  assert (Hcr : forall c',
    (if list_truthy (container_statuses pod)
     then count_restarts (list_items (container_statuses pod)) c' else c')
    = count_restarts (list_items (container_statuses pod)) c').
  { intros c'. destruct (container_statuses pod) as [[|? ?]|]; reflexivity. }
  rewrite Hcr, count_restarts_spec. cbn [total running pending failed unhealthy].
  unfold count_phase.
  destruct (phase_is pod "Running") eqn:HR.
  - rewrite (phase_is_exclusive pod "Running" "Pending"),
            (phase_is_exclusive pod "Running" "Failed") by (assumption || discriminate).
    cbn. repeat split; lia.
  - destruct (phase_is pod "Pending") eqn:HP.
    + rewrite (phase_is_exclusive pod "Pending" "Failed") by (assumption || discriminate).
      cbn. repeat split; lia.
    + destruct (phase_is pod "Failed") eqn:HF; cbn; repeat split; lia.
Qed.

(** The whole pod loop. *)
Lemma count_pods_spec pods c :
  let c' := fold_left count_pod pods c in
  total c' = (total c + length pods)%nat /\
  running c' = (running c + count_if (fun p => phase_is p "Running") pods)%nat /\
  pending c' = (pending c + count_if (fun p => phase_is p "Pending") pods)%nat /\
  failed c' = (failed c + count_if (fun p => phase_is p "Failed") pods)%nat /\
  unhealthy c' = (unhealthy c + count_if has_restarting_container pods)%nat.
Proof.
  revert c. induction pods as [|pod pods IH]; intros c; cbn [fold_left length].
  - unfold count_if. cbn. repeat split; lia.
  - destruct (IH (count_pod c pod)) as (Ht & Hr & Hp & Hf & Hu).
    destruct (count_pod_spec c pod) as (Ht1 & Hr1 & Hp1 & Hf1 & Hu1).
    rewrite !count_if_cons. repeat split; lia.
Qed.

(** Every pod falls in at most one of the three buckets, or in none. *)
Lemma phase_buckets_partition pods :
  (count_if (fun p => phase_is p "Running") pods
   + count_if (fun p => phase_is p "Pending") pods
   + count_if (fun p => phase_is p "Failed") pods
   + count_if (fun p => negb (phase_bucketed p)) pods = length pods)%nat.
Proof.
  induction pods as [|pod pods IH]; [reflexivity|].
  rewrite !count_if_cons. cbn [length].
  assert (E : (b2n (phase_is pod "Running") + b2n (phase_is pod "Pending")
               + b2n (phase_is pod "Failed") + b2n (negb (phase_bucketed pod)) = 1)%nat).
  { unfold phase_bucketed.
    destruct (phase_is pod "Running") eqn:HR.
    - rewrite (phase_is_exclusive pod "Running" "Pending"),
              (phase_is_exclusive pod "Running" "Failed") by (assumption || discriminate).
      reflexivity.
    - destruct (phase_is pod "Pending") eqn:HP.
      + rewrite (phase_is_exclusive pod "Pending" "Failed")
          by (assumption || discriminate).
        reflexivity.
      + now destruct (phase_is pod "Failed"). }
  lia.
Qed.

(** The whole deployment loop. *)
Lemma count_deployments_spec ds c :
  let c' := fold_left count_deployment ds c in
  deployments_total c' = (deployments_total c + length ds)%nat /\
  deployments_ready c'
  = (deployments_ready c + count_if deployment_counted_ready ds)%nat.
Proof.
  revert c. induction ds as [|d ds IH]; intros c; cbn [fold_left length].
  - unfold count_if. cbn. split; lia.
  - destruct (IH (count_deployment c d)) as (Ht & Hr).
    rewrite count_if_cons. unfold count_deployment in *.
    destruct (deployment_counted_ready d); cbn in *; split; lia.
Qed.

(** The condition on a deployment, spelled out. *)
Lemma deployment_counted_ready_iff d :
  deployment_counted_ready d = true <->
  exists r, ready_replicas d = Some r /\ r <> 0 /\ replicas d = Some r.
Proof.
  unfold deployment_counted_ready, int_truthy, int_eq.
  destruct (ready_replicas d) as [r|], (replicas d) as [n|]; cbn; split;
    try discriminate; try (intros (r' & H & _); discriminate);
    try (intros (r' & _ & _ & H); discriminate).
  - intros H. apply andb_true_iff in H as [H1 H2].
    apply negb_true_iff, Z.eqb_neq in H1. apply Z.eqb_eq in H2. subst n.
    exists r. auto.
  - intros (r' & H1 & H2 & H3). injection H1 as <-. injection H3 as ->.
    apply andb_true_iff. split; [now apply negb_true_iff, Z.eqb_neq|apply Z.eqb_refl].
  - rewrite andb_false_r. discriminate.
Qed.

(** With both lists answered, the summary is the two loops run from zero. *)
Lemma get_namespace_health_summary_run w ns s pods ds :
  list_namespaced_pod w (trace s) ns = Ok pods ->
  list_namespaced_deployment w (trace s ++ [Call (ListPods ns) true]) ns = Ok ds ->
  get_namespace_health_summary w ns s =
  (Ok (Summary ns (fold_left count_pod pods no_pods)
               (fold_left count_deployment ds no_deployments)
               (utcnow w (trace s))),
   emit (Call (ListDeployments ns) true) (emit (Call (ListPods ns) true) s)).
Proof.
  intros Hp Hd.
  unfold get_namespace_health_summary, try_except_ApiException, bind, now, call.
  rewrite Hp. cbn. rewrite Hd. reflexivity.
Qed.

(** C5, as the code has it.  The summary counts a deployment as ready
    exactly when its ready count is present, is not 0, and equals the
    replica count of its spec; a deployment whose spec asks for 0
    replicas is never counted as ready. *)
Theorem deployments_ready_count w ns s pods ds :
  list_namespaced_pod w (trace s) ns = Ok pods ->
  list_namespaced_deployment w (trace s ++ [Call (ListPods ns) true]) ns = Ok ds ->
  exists p d ts,
    fst (get_namespace_health_summary w ns s) = Ok (Summary ns p d ts) /\
    deployments_total d = length ds /\
    deployments_ready d = count_if deployment_counted_ready ds /\
    (forall x, deployment_counted_ready x = true <->
               exists r, ready_replicas x = Some r /\ r <> 0 /\ replicas x = Some r) /\
    (forall x, replicas x = Some 0 -> deployment_counted_ready x = false).
Proof.
  intros Hp Hd. rewrite (get_namespace_health_summary_run w ns s pods ds Hp Hd).
  eexists _, _, _. split; [reflexivity|].
  destruct (count_deployments_spec ds no_deployments) as (Ht & Hr).
  split; [exact Ht|]. split; [exact Hr|]. split.
  - apply deployment_counted_ready_iff.
  - intros x Hx. destruct (deployment_counted_ready x) eqn:E; [|reflexivity].
    apply deployment_counted_ready_iff in E as (r & _ & Hr0 & Hr1). congruence.
Qed.

Lemma deployments_ready_count_witness :
  exists p d ts,
    fst (get_namespace_health_summary test_namespace "test-namespace" initial_state)
    = Ok (Summary "test-namespace" p d ts) /\
    deployments_total d = 1%nat /\ deployments_ready d = 1%nat.
Proof.
  destruct (deployments_ready_count test_namespace "test-namespace" initial_state
              _ _ eq_refl eq_refl) as (p & d & ts & E & Ht & Hr & _).
  exists p, d, ts. split; [exact E|]. split; [exact Ht|exact Hr].
Defined.

(** C5, counterexample.  A deployment scaled to zero has a ready count
    equal to its replica count, and so has one whose ready count is left
    out when read as 0; the summary counts neither as ready. *)
Lemma scaled_to_zero_not_ready :
  ready_replicas (deployment (Some 0) (Some 0)) = replicas (deployment (Some 0) (Some 0)) /\
  fst (get_namespace_health_summary scaled_down_namespace "staging" initial_state)
  = Ok (Summary "staging" no_pods
          {| deployments_total := 2; deployments_ready := 0 |}
          "2024-01-01T12:00:00+00:00").
Proof. split; reflexivity. Qed.

(** C6, as the code has it.  The summary has three phase buckets, running,
    pending and failed, and no bucket for any other phase.  A pod is
    counted in the one bucket its phase names, or in none; the three
    counts plus the number of pods in another phase make up the total. *)
Theorem phase_buckets_sum w ns s pods ds :
  list_namespaced_pod w (trace s) ns = Ok pods ->
  list_namespaced_deployment w (trace s ++ [Call (ListPods ns) true]) ns = Ok ds ->
  exists p d ts,
    fst (get_namespace_health_summary w ns s) = Ok (Summary ns p d ts) /\
    total p = length pods /\
    running p = count_if (fun x => phase_is x "Running") pods /\
    pending p = count_if (fun x => phase_is x "Pending") pods /\
    failed p = count_if (fun x => phase_is x "Failed") pods /\
    (running p + pending p + failed p
     + count_if (fun x => negb (phase_bucketed x)) pods = total p)%nat.
Proof.
  intros Hp Hd. rewrite (get_namespace_health_summary_run w ns s pods ds Hp Hd).
  eexists _, _, _. split; [reflexivity|].
  destruct (count_pods_spec pods no_pods) as (Ht & Hr & Hpe & Hf & _).
  cbn [total running pending failed unhealthy no_pods] in *.
  pose proof (phase_buckets_partition pods).
  repeat split; lia.
Qed.

Lemma phase_buckets_sum_witness :
  exists p d ts,
    fst (get_namespace_health_summary batch_namespace "batch" initial_state)
    = Ok (Summary "batch" p d ts) /\
    total p = 2%nat /\ (running p + pending p + failed p + 1 = total p)%nat.
Proof.
  destruct (phase_buckets_sum batch_namespace "batch" initial_state
              _ _ eq_refl eq_refl) as (p & d & ts & E & Ht & _ & _ & _ & Hsum).
  exists p, d, ts. split; [exact E|]. split; [exact Ht|exact Hsum].
Defined.

(** C6, counterexample.  With a pod in phase Succeeded next to a running
    one, the total is 2 and the phase buckets add up to 1. *)
Lemma succeeded_pod_in_no_bucket :
  fst (get_namespace_health_summary batch_namespace "batch" initial_state)
  = Ok (Summary "batch"
          {| total := 2; running := 1; pending := 0; failed := 0; unhealthy := 1 |}
          no_deployments "2024-01-01T12:00:00+00:00") /\
  (1 + 0 + 0 <> 2)%nat.
Proof. split; [reflexivity|lia]. Qed.

(** C10.  In a namespace summary the unhealthy count is the number of pods
    having some container with 3 restarts or more: a pod adds at most 1,
    however many of its containers are at or above 3, and the unhealthy
    count never exceeds the total pod count. *)
Theorem unhealthy_at_most_total w ns s pods ds :
  list_namespaced_pod w (trace s) ns = Ok pods ->
  list_namespaced_deployment w (trace s ++ [Call (ListPods ns) true]) ns = Ok ds ->
  exists p d ts,
    fst (get_namespace_health_summary w ns s) = Ok (Summary ns p d ts) /\
    (forall c pod, (unhealthy (count_pod c pod) <= unhealthy c + 1)%nat) /\
    unhealthy p = count_if has_restarting_container pods /\
    total p = length pods /\
    (unhealthy p <= total p)%nat.
Proof.
  intros Hp Hd. rewrite (get_namespace_health_summary_run w ns s pods ds Hp Hd).
  eexists _, _, _. split; [reflexivity|].
  destruct (count_pods_spec pods no_pods) as (Ht & _ & _ & _ & Hu).
  cbn [total unhealthy no_pods] in *.
  pose proof (count_if_le has_restarting_container pods).
  split.
  - intros c pod. destruct (count_pod_spec c pod) as (_ & _ & _ & _ & ->).
    destruct (has_restarting_container pod); cbn; lia.
  - repeat split; lia.
Qed.

Lemma unhealthy_at_most_total_witness :
  exists p d ts,
    fst (get_namespace_health_summary batch_namespace "batch" initial_state)
    = Ok (Summary "batch" p d ts) /\
    unhealthy p = 1%nat /\ total p = 2%nat.
Proof.
  destruct (unhealthy_at_most_total batch_namespace "batch" initial_state
              _ _ eq_refl eq_refl) as (p & d & ts & E & _ & Hu & Ht & _).
  exists p, d, ts. split; [exact E|]. split; [exact Hu|exact Ht].
Defined.

(** ** Remediation (AutoHealerService.heal_deployment) *)

Lemma counter_inc_same {K} `{Countable K} (m : gmap K nat) k :
  counter (counter_inc m k) k = S (counter m k).
Proof. unfold counter, counter_inc. now rewrite lookup_insert_eq. Qed.

Lemma counter_inc_other {K} `{Countable K} (m : gmap K nat) k k' :
  k <> k' -> counter (counter_inc m k) k' = counter m k'.
Proof. intros Hne. unfold counter, counter_inc. now rewrite lookup_insert_ne. Qed.

Lemma with_trace_same s : with_trace (trace s) s = s.
Proof. now destruct s. Qed.

(** [restart_deployment] on each answer to its patch. *)
Lemma restart_deployment_run w d ns s :
  let body := restart_patch (utcnow w (trace s)) in
  restart_deployment w d ns s =
  match patch_namespaced_deployment w (trace s) d ns body with
  | Ok _ =>
      (Ok true,
       logged INFO ("Successfully patched deployment " +:+ d +:+ " in " +:+ ns)
              (emit (Call (PatchDeployment d ns body) true) s))
  | Raise (ApiException e) =>
      (Ok false,
       logged ERROR ("Failed to patch deployment " +:+ d +:+ ": " +:+ e)
              (emit (Call (PatchDeployment d ns body) false) s))
  | Raise (Exception e) =>
      (Raise (Exception e), emit (Call (PatchDeployment d ns body) false) s)
  end.
Proof.
  unfold restart_deployment, try_except_ApiException, bind, now, call. cbn.
  destruct (patch_namespaced_deployment w (trace s) d ns _) as [[]|[e|e]]; reflexivity.
Qed.

(** [remediate] in a dry run: two log lines and the dry-run counter. *)
Lemma remediate_dry_run w ns d s :
  remediate w true ns d s =
  (Ok true,
   action_counted "dry_run_restart" ns d
     (logged INFO ("DRY RUN: Would restart deployment " +:+ d)
        (logged INFO ("Healing deployment " +:+ d +:+ " in " +:+ ns) s))).
Proof. reflexivity. Qed.

(** [remediate] outside a dry run, on each answer to the patch. *)
Lemma remediate_run w ns d s :
  let s1 := logged INFO ("Healing deployment " +:+ d +:+ " in " +:+ ns) s in
  let body := restart_patch (utcnow w (trace s)) in
  remediate w false ns d s =
  match patch_namespaced_deployment w (trace s) d ns body with
  | Ok _ =>
      (Ok true,
       logged INFO ("Successfully triggered restart for " +:+ d)
         (action_counted "restart" ns d
            (logged INFO ("Successfully patched deployment " +:+ d +:+ " in " +:+ ns)
               (emit (Call (PatchDeployment d ns body) true) s1))))
  | Raise (ApiException e) =>
      (Ok false,
       error_counted "patch_failed"
         (logged ERROR ("Failed to patch deployment " +:+ d +:+ ": " +:+ e)
            (emit (Call (PatchDeployment d ns body) false) s1)))
  | Raise (Exception e) =>
      (Raise (Exception e), emit (Call (PatchDeployment d ns body) false) s1)
  end.
Proof.
  cbn zeta. unfold remediate. unfold bind at 1. unfold logger at 1.
  unfold bind at 1. rewrite restart_deployment_run. cbn [trace logged].
  destruct (patch_namespaced_deployment w (trace s) d ns _) as [[]|[e|e]]; reflexivity.
Qed.

(** The inner loop acts on the first Deployment owner, if there is one. *)
Lemma heal_rs_owners_run w dry ns rs_owners s :
  heal_rs_owners w dry ns rs_owners s =
  match first_deployment rs_owners with
  | None => (Ok None, s)
  | Some d =>
      match remediate w dry ns d s with
      | (Ok b, s') => (Ok (Some b), s')
      | (Raise e, s') => (Raise e, s')
      end
  end.
Proof.
  induction rs_owners as [|o rest IH]; cbn [heal_rs_owners first_deployment].
  - reflexivity.
  - destruct (String.eqb (kind o) "Deployment"); [|exact IH].
    destruct dry; [reflexivity|].
    rewrite remediate_run. cbn zeta.
    unfold bind at 1. unfold logger at 1. unfold bind at 1.
    rewrite restart_deployment_run. cbn [trace logged].
    destruct (patch_namespaced_deployment w (trace s) _ ns _) as [[]|[e|e]]; reflexivity.
Qed.

Lemma remediate_never_ApiException w dry ns d s e :
  fst (remediate w dry ns d s) <> Raise (ApiException e).
Proof.
  destruct dry; [rewrite remediate_dry_run; discriminate|].
  rewrite remediate_run. cbn zeta.
  destruct (patch_namespaced_deployment w (trace s) d ns _) as [[]|[e'|e']]; discriminate.
Qed.

Lemma resolve_owners_not_no_owner w ns h owners h' :
  resolve_owners w ns h owners <> (Skip no_owner, h').
Proof.
  revert h. induction owners as [|o rest IH]; intros h; cbn; [discriminate|].
  destruct (String.eqb (kind o) "ReplicaSet"); [|apply IH].
  destruct (read_namespaced_replica_set w h (owner_name o) ns) as [rs|e]; [|discriminate].
  destruct (first_deployment (list_items (rs_owner_references rs))); [discriminate|apply IH].
Qed.

(** The outer loop follows the resolution, then acts on its answer. *)
Lemma heal_owners_run w dry ns owners s :
  heal_owners w dry ns owners s =
  match resolve_owners w ns (trace s) owners with
  | (DeploymentRef d _, h') =>
      match remediate w dry ns d (with_trace h' s) with
      | (Ok b, s') => (Ok (Some b), s')
      | (Raise e, s') => (Raise e, s')
      end
  | (Skip _, h') => (Ok None, with_trace h' s)
  | (Unreadable e, h') => (Raise e, with_trace h' s)
  end.
Proof.
  revert s. induction owners as [|o rest IH]; intros s;
    cbn [heal_owners resolve_owners].
  - now rewrite with_trace_same.
  - destruct (String.eqb (kind o) "ReplicaSet"); [|apply IH].
    unfold bind at 1. unfold call at 1.
    destruct (read_namespaced_replica_set w (trace s) (owner_name o) ns) as [rs|e];
      cbn [is_ok]; [|reflexivity].
    destruct (list_truthy (rs_owner_references rs)) eqn:Ht.
    + unfold bind at 1. rewrite heal_rs_owners_run.
      destruct (first_deployment (list_items (rs_owner_references rs))) as [d|].
      * change (emit (Call (ReadReplicaSet (owner_name o) ns) true) s)
          with (with_trace (trace s ++ [Call (ReadReplicaSet (owner_name o) ns) true]) s).
        now destruct (remediate w dry ns d _) as [[b|e] s'].
      * rewrite IH. reflexivity.
    + assert (first_deployment (list_items (rs_owner_references rs)) = None) as ->.
      { destruct (rs_owner_references rs) as [[|? ?]|]; (reflexivity || discriminate). }
      rewrite IH. reflexivity.
Qed.

(** [heal_deployment] resolves the owning deployment and acts on the
    answer: remediation, one of two warnings, or the error handler. *)
Lemma heal_deployment_run w dry r s :
  heal_deployment w dry r s =
  match resolveDeployment w (info_name r) (info_namespace r) (trace s) with
  | (DeploymentRef d _, h') => remediate w dry (info_namespace r) d (with_trace h' s)
  | (Skip no_owner, h') =>
      (Ok false,
       logged WARNING ("Pod " +:+ info_name r +:+ " has no owner references, skipping")
              (with_trace h' s))
  | (Skip no_deployment_found, h') =>
      (Ok false,
       logged WARNING ("Could not find deployment for pod " +:+ info_name r)
              (with_trace h' s))
  | (Unreadable (ApiException e), h') =>
      (Ok false,
       error_counted "api_error"
         (logged ERROR ("Failed to heal pod " +:+ info_name r +:+ ": " +:+ e)
                 (with_trace h' s)))
  | (Unreadable (Exception e), h') => (Raise (Exception e), with_trace h' s)
  end.
Proof.
  unfold heal_deployment, resolveDeployment, try_except_ApiException.
  unfold bind at 1. unfold call at 1.
  destruct (read_namespaced_pod w (trace s) (info_name r) (info_namespace r))
    as [pod|[e|e]]; cbn [is_ok]; try reflexivity.
  destruct (list_truthy (pod_owner_references pod)); cbn [negb]; [|reflexivity].
  unfold bind at 1. rewrite heal_owners_run. cbn [trace emit].
  pose proof (resolve_owners_not_no_owner w (info_namespace r)
                (trace s ++ [Call (ReadPod (info_name r) (info_namespace r)) true])
                (list_items (pod_owner_references pod))) as Hno.
  destruct (resolve_owners w (info_namespace r) _ _) as [[d ns'|[|]|[e|e]] h'].
  - pose proof (remediate_never_ApiException w dry (info_namespace r) d
                  (with_trace h' s)) as Hr.
    change (with_trace h' (emit _ s)) with (with_trace h' s).
    destruct (remediate w dry (info_namespace r) d (with_trace h' s)) as [[b|[e|e]] s'];
      try reflexivity.
    exfalso. now apply (Hr e).
  - exfalso. now apply (Hno h').
  - reflexivity.
  - reflexivity.
  - reflexivity.
Qed.

(** *** What resolution adds to the history *)

Lemma mutating_calls_app a b :
  mutating_calls (a ++ b) = (mutating_calls a ++ mutating_calls b)%list.
Proof. apply List.filter_app. Qed.

Lemma pods_read_app a b : pods_read (a ++ b) = (pods_read a ++ pods_read b)%list.
Proof.
  induction a as [|ev a IH]; [reflexivity|].
  destruct ev as [[]|]; cbn; rewrite ?IH; reflexivity.
Qed.

Lemma patched_app a b : patched (a ++ b) = (patched a ++ patched b)%list.
Proof.
  induction a as [|ev a IH]; [reflexivity|].
  destruct ev as [[]|]; cbn; rewrite ?IH; reflexivity.
Qed.

(** Resolution over the owners only reads ReplicaSets; a read has failed
    exactly when the outcome is [Unreadable]. *)
Lemma resolve_owners_trace w ns owners h :
  exists evs,
    snd (resolve_owners w ns h owners) = (h ++ evs)%list /\
    mutating_calls evs = [] /\ pods_read evs = [] /\
    existsb is_failure evs
    = match fst (resolve_owners w ns h owners) with
      | Unreadable _ => true
      | _ => false
      end.
Proof.
  revert h. induction owners as [|o rest IH]; intros h; cbn [resolve_owners].
  - exists []. cbn. now rewrite app_nil_r.
  - destruct (String.eqb (kind o) "ReplicaSet"); [|apply IH].
    destruct (read_namespaced_replica_set w h (owner_name o) ns) as [rs|e].
    + destruct (first_deployment (list_items (rs_owner_references rs))) as [d|].
      * eexists [_]. cbn. repeat split.
      * destruct (IH (h ++ [Call (ReadReplicaSet (owner_name o) ns) true])%list)
          as (evs & E & Hm & Hp & Hf).
        exists (Call (ReadReplicaSet (owner_name o) ns) true :: evs).
        rewrite E, <- app_assoc. cbn. repeat split; assumption.
    + eexists [_]. cbn. repeat split.
Qed.

(** Resolution of a pod adds the read of the pod, then ReplicaSet reads. *)
Lemma resolveDeployment_trace w n ns h :
  exists evs,
    snd (resolveDeployment w n ns h) = (h ++ evs)%list /\
    mutating_calls evs = [] /\ pods_read evs = [(n, ns)] /\
    existsb is_failure evs
    = match fst (resolveDeployment w n ns h) with
      | Unreadable _ => true
      | _ => false
      end.
Proof.
  unfold resolveDeployment.
  destruct (read_namespaced_pod w h n ns) as [pod|e].
  - destruct (list_truthy (pod_owner_references pod)).
    + destruct (resolve_owners_trace w ns (list_items (pod_owner_references pod))
                  (h ++ [Call (ReadPod n ns) true])%list) as (evs & E & Hm & Hp & Hf).
      exists (Call (ReadPod n ns) true :: evs).
      rewrite E, <- app_assoc. cbn. rewrite Hp. repeat split; assumption.
    + eexists [_]. cbn. repeat split.
  - eexists [_]. cbn. repeat split.
Qed.

Lemma resolve_owners_app w ns pre rest h h2 :
  resolve_owners w ns h pre = (Skip no_deployment_found, h2) ->
  resolve_owners w ns h (pre ++ rest) = resolve_owners w ns h2 rest.
Proof.
  revert h. induction pre as [|o pre IH]; intros h; cbn [resolve_owners app].
  - now intros [= ->].
  - destruct (String.eqb (kind o) "ReplicaSet"); [|apply IH].
    destruct (read_namespaced_replica_set w h (owner_name o) ns) as [rs|e];
      [|discriminate].
    destruct (first_deployment (list_items (rs_owner_references rs)));
      [discriminate|apply IH].
Qed.

Lemma first_deployment_app pre d post :
  first_deployment pre = None -> kind d = "Deployment" ->
  first_deployment (pre ++ d :: post) = Some (owner_name d).
Proof.
  intros Hpre Hd. induction pre as [|o pre IH]; cbn in *.
  - now rewrite Hd.
  - destruct (String.eqb (kind o) "Deployment"); [discriminate|auto].
Qed.

(** C4.  In a dry run [heal_deployment] sends no patch, whatever pod it is
    given and whatever the cluster answers; and for a pod whose owning
    deployment is resolved it returns [True], having added one to the
    dry-run counter of that deployment and nothing to the error
    counters. *)
Theorem dry_run_never_patches w r s :
  mutating_calls (trace (snd (heal_deployment w true r s))) = mutating_calls (trace s) /\
  (forall d ns h',
     resolveDeployment w (info_name r) (info_namespace r) (trace s)
     = (DeploymentRef d ns, h') ->
     fst (heal_deployment w true r s) = Ok true /\
     trace (snd (heal_deployment w true r s)) = h' /\
     HEAL_ACTIONS (snd (heal_deployment w true r s))
     = counter_inc (HEAL_ACTIONS s) ("dry_run_restart", info_namespace r, d) /\
     counter (HEAL_ACTIONS (snd (heal_deployment w true r s)))
             ("dry_run_restart", info_namespace r, d)
     = S (counter (HEAL_ACTIONS s) ("dry_run_restart", info_namespace r, d)) /\
     HEAL_ERRORS (snd (heal_deployment w true r s)) = HEAL_ERRORS s).
Proof.
  rewrite heal_deployment_run.
  destruct (resolveDeployment_trace w (info_name r) (info_namespace r) (trace s))
    as (evs & E & Hm & _ & _).
  destruct (resolveDeployment w (info_name r) (info_namespace r) (trace s))
    as [res h] eqn:R. cbn [snd] in E. subst h.
  split.
  - assert (Hh : mutating_calls (trace s ++ evs) = mutating_calls (trace s)).
    { now rewrite mutating_calls_app, Hm, app_nil_r. }
    destruct res as [d ns|[|]|[e|e]]; exact Hh.
  - intros d ns h' [= -> <-]. rewrite remediate_dry_run. cbn.
    split; [reflexivity|]. split; [reflexivity|]. split; [reflexivity|].
    split; [apply counter_inc_same|reflexivity].
Qed.

Lemma dry_run_never_patches_witness :
  fst (heal_deployment ownership_cluster true (record_of "portal" owned_pod) initial_state)
  = Ok true /\
  mutating_calls (trace (snd (heal_deployment ownership_cluster true
                                (record_of "portal" owned_pod) initial_state))) = [].
Proof.
  destruct (dry_run_never_patches ownership_cluster (record_of "portal" owned_pod)
              initial_state) as (Hm & H).
  destruct (H "app-1" "portal" _ eq_refl) as (E & _).
  split; [exact E|exact Hm].
Defined.

(** C7, as the code has it.  [heal_deployment] returns a boolean.  For a
    pod without owner references it returns [False] after the read of the
    pod alone, with no patch sent and no counter touched; for a pod whose
    ReplicaSet owners lead to no Deployment it returns the same [False],
    again with no patch and no counter touched.  The two cases differ in
    the warning that is logged, not in the value returned. *)
Theorem skipped_pods_return_false w dry r s pod :
  read_namespaced_pod w (trace s) (info_name r) (info_namespace r) = Ok pod ->
  let s' := snd (heal_deployment w dry r s) in
  let h1 := (trace s ++ [Call (ReadPod (info_name r) (info_namespace r)) true])%list in
  (list_truthy (pod_owner_references pod) = false ->
     fst (heal_deployment w dry r s) = Ok false /\
     trace s' = h1 /\ mutating_calls (trace s') = mutating_calls (trace s) /\
     HEAL_ACTIONS s' = HEAL_ACTIONS s /\ HEAL_ERRORS s' = HEAL_ERRORS s /\
     log s' = (log s ++ [(WARNING, "Pod " +:+ info_name r
                                   +:+ " has no owner references, skipping")])%list) /\
  (forall h',
     list_truthy (pod_owner_references pod) = true ->
     resolve_owners w (info_namespace r) h1 (list_items (pod_owner_references pod))
     = (Skip no_deployment_found, h') ->
     fst (heal_deployment w dry r s) = Ok false /\
     trace s' = h' /\ mutating_calls (trace s') = mutating_calls (trace s) /\
     HEAL_ACTIONS s' = HEAL_ACTIONS s /\ HEAL_ERRORS s' = HEAL_ERRORS s /\
     log s' = (log s ++ [(WARNING, "Could not find deployment for pod "
                                   +:+ info_name r)])%list).
Proof.
  intros Hpod. cbn zeta. rewrite heal_deployment_run.
  unfold resolveDeployment. rewrite Hpod. split.
  - intros ->. cbn. repeat split.
    rewrite mutating_calls_app. cbn. now rewrite app_nil_r.
  - intros h' -> Hres.
    destruct (resolve_owners_trace w (info_namespace r)
                (list_items (pod_owner_references pod))
                (trace s ++ [Call (ReadPod (info_name r) (info_namespace r)) true]))
      as (evs & E & Hm & _ & _).
    rewrite Hres in *. cbn in E |- *. subst h'. repeat split.
    rewrite !mutating_calls_app, Hm. cbn. now rewrite !app_nil_r.
Qed.

Lemma skipped_pods_return_false_witness :
  fst (heal_deployment ownership_cluster false (record_of "portal" orphan_pod)
         initial_state) = Ok false /\
  fst (heal_deployment ownership_cluster false (record_of "portal" stray_pod)
         initial_state) = Ok false.
Proof.
  split.
  - destruct (skipped_pods_return_false ownership_cluster false
                (record_of "portal" orphan_pod) initial_state orphan_pod eq_refl)
      as (H & _).
    exact (proj1 (H eq_refl)).
  - destruct (skipped_pods_return_false ownership_cluster false
                (record_of "portal" stray_pod) initial_state stray_pod eq_refl)
      as (_ & H).
    exact (proj1 (H _ eq_refl eq_refl)).
Defined.

(** C7, counterexample.  Resolution skips one pod for having no owner and
    the other for leading to no deployment; [heal_deployment] returns the
    same value for both. *)
Lemma skip_reasons_not_in_returned_value :
  fst (resolveDeployment ownership_cluster "orphan-1" "portal" []) = Skip no_owner /\
  fst (resolveDeployment ownership_cluster "stray-1" "portal" [])
  = Skip no_deployment_found /\
  fst (heal_deployment ownership_cluster false (record_of "portal" orphan_pod)
         initial_state)
  = fst (heal_deployment ownership_cluster false (record_of "portal" stray_pod)
           initial_state).
Proof. repeat split. Qed.

(** C8.  Take a pod whose owner list reaches a ReplicaSet, the owners
    before it having led to no deployment, and let that ReplicaSet have a
    first owner of kind Deployment.  Then resolution answers that
    deployment in the namespace of the pod, without looking at any later
    owner of the ReplicaSet or of the pod, and [heal_deployment] acts on
    it: in a dry run it counts the dry run for that deployment and
    namespace, otherwise its one patch goes to that deployment in that
    namespace. *)
Theorem two_hop_resolution w dry r s pod pre o post h2 rs pre' d post' :
  let ns := info_namespace r in
  let h1 := (trace s ++ [Call (ReadPod (info_name r) ns) true])%list in
  let h3 := (h2 ++ [Call (ReadReplicaSet (owner_name o) ns) true])%list in
  let s' := snd (heal_deployment w dry r s) in
  read_namespaced_pod w (trace s) (info_name r) ns = Ok pod ->
  pod_owner_references pod = Some (pre ++ o :: post) ->
  resolve_owners w ns h1 pre = (Skip no_deployment_found, h2) ->
  kind o = "ReplicaSet" ->
  read_namespaced_replica_set w h2 (owner_name o) ns = Ok rs ->
  rs_owner_references rs = Some (pre' ++ d :: post') ->
  first_deployment pre' = None ->
  kind d = "Deployment" ->
  resolveDeployment w (info_name r) ns (trace s)
  = (DeploymentRef (owner_name d) ns, h3) /\
  (dry = true ->
     fst (heal_deployment w dry r s) = Ok true /\ trace s' = h3 /\
     HEAL_ACTIONS s'
     = counter_inc (HEAL_ACTIONS s) ("dry_run_restart", ns, owner_name d)) /\
  (dry = false ->
     let body := restart_patch (utcnow w h3) in
     trace s'
     = (h3 ++ [Call (PatchDeployment (owner_name d) ns body)
                    (is_ok (patch_namespaced_deployment w h3 (owner_name d) ns body))])%list
     /\ patched (trace s') = (patched (trace s) ++ [(owner_name d, ns)])%list).
Proof.
  cbn zeta. intros Hpod Hown Hpre Ho Hrs Hrso Hpre' Hd.
  assert (R : resolveDeployment w (info_name r) (info_namespace r) (trace s)
              = (DeploymentRef (owner_name d) (info_namespace r),
                 (h2 ++ [Call (ReadReplicaSet (owner_name o) (info_namespace r)) true])%list)).
  { unfold resolveDeployment. rewrite Hpod, Hown.
    assert (list_truthy (Some (pre ++ o :: post)) = true) as ->
      by (now destruct pre).
    cbn [list_items]. rewrite (resolve_owners_app _ _ _ _ _ _ Hpre).
    cbn [resolve_owners]. rewrite Ho, String.eqb_refl, Hrs, Hrso. cbn [list_items].
    now rewrite (first_deployment_app _ _ _ Hpre' Hd). }
  split; [exact R|].
  rewrite heal_deployment_run, R. split.
  - intros ->. rewrite remediate_dry_run. cbn. repeat split.
  - intros ->. rewrite remediate_run. cbn zeta. cbn [trace with_trace].
    assert (Hp : patched (h2 ++ [Call (ReadReplicaSet (owner_name o) (info_namespace r)) true])
                 = patched (trace s)).
    { destruct (resolveDeployment_trace w (info_name r) (info_namespace r) (trace s))
        as (evs & E & Hm & _ & _).
      rewrite R in E. cbn [snd] in E. rewrite E, patched_app.
      assert (patched evs = []) as ->; [|now rewrite app_nil_r].
      clear -Hm. induction evs as [|ev evs IH]; [reflexivity|].
      destruct ev as [[]|]; cbn in *; try discriminate; auto. }
    destruct (patch_namespaced_deployment w _ (owner_name d) (info_namespace r) _)
      as [[]|[e|e]]; cbn; (split; [reflexivity|]);
      now rewrite patched_app, Hp.
Qed.

Lemma two_hop_resolution_witness :
  resolveDeployment ownership_cluster "app-1-7d4b9-x2x" "portal" []
  = (DeploymentRef "app-1" "portal",
     [Call (ReadPod "app-1-7d4b9-x2x" "portal") true;
      Call (ReadReplicaSet "rs-1" "portal") true]) /\
  patched (trace (snd (heal_deployment ownership_cluster false
                         (record_of "portal" owned_pod) initial_state)))
  = [("app-1", "portal")].
Proof.
  destruct (two_hop_resolution ownership_cluster false (record_of "portal" owned_pod)
              initial_state owned_pod
              [owner "Node" "node-a"] (owner "ReplicaSet" "rs-1")
              [owner "ReplicaSet" "rs-2"]
              [Call (ReadPod "app-1-7d4b9-x2x" "portal") true]
              rs_1 [owner "Rollout" "canary"] (owner "Deployment" "app-1")
              [owner "Deployment" "app-2"]
              eq_refl eq_refl eq_refl eq_refl eq_refl eq_refl eq_refl eq_refl)
    as (R & _ & H).
  split; [exact R|]. exact (proj2 (H eq_refl)).
Defined.

(** ** The healing cycle (AutoHealerService.run_healing_cycle) *)

Lemma resolve_owners_only_ApiException w ns owners h e :
  raises_only_ApiException w ->
  fst (resolve_owners w ns h owners) <> Unreadable (Exception e).
Proof.
  intros (_ & _ & Hrs & _). revert h.
  induction owners as [|o rest IH]; intros h; cbn [resolve_owners]; [discriminate|].
  destruct (String.eqb (kind o) "ReplicaSet"); [|apply IH].
  specialize (Hrs h (owner_name o) ns).
  destruct (read_namespaced_replica_set w h (owner_name o) ns) as [rs|[e'|e']].
  - destruct (first_deployment (list_items (rs_owner_references rs)));
      [discriminate|apply IH].
  - discriminate.
  - destruct Hrs.
Qed.

Lemma resolveDeployment_only_ApiException w n ns h e :
  raises_only_ApiException w ->
  fst (resolveDeployment w n ns h) <> Unreadable (Exception e).
Proof.
  intros Hw. unfold resolveDeployment.
  pose proof Hw as (_ & Hpod & _). specialize (Hpod h n ns).
  destruct (read_namespaced_pod w h n ns) as [pod|[e'|e']].
  - destruct (list_truthy (pod_owner_references pod)); [|discriminate].
    now apply resolve_owners_only_ApiException.
  - discriminate.
  - destruct Hpod.
Qed.

Lemma remediation_errors_api_error s :
  remediation_errors (error_counted "api_error" s) = S (remediation_errors s).
Proof.
  unfold remediation_errors, error_counted. cbn [HEAL_ERRORS].
  rewrite counter_inc_same, counter_inc_other by discriminate. reflexivity.
Qed.

Lemma remediation_errors_patch_failed s :
  remediation_errors (error_counted "patch_failed" s) = S (remediation_errors s).
Proof.
  unfold remediation_errors, error_counted. cbn [HEAL_ERRORS].
  rewrite counter_inc_same, counter_inc_other by discriminate. lia.
Qed.

(** With a client that raises nothing but [ApiException], one remediation
    always returns a boolean; it reads its pod once; and if any request in
    it failed, the value is [False] and one error was counted. *)
Lemma heal_deployment_isolated w dry r s :
  raises_only_ApiException w ->
  exists b s1 evs,
    heal_deployment w dry r s = (Ok b, s1) /\
    trace s1 = trace s ++ evs /\
    pods_read evs = [record_key r] /\
    (existsb is_failure evs = true ->
     b = false /\ remediation_errors s1 = S (remediation_errors s)).
Proof.
  intros Hw. rewrite heal_deployment_run.
  destruct (resolveDeployment_trace w (info_name r) (info_namespace r) (trace s))
    as (evs & E & _ & Hp & Hf).
  pose proof (fun e => resolveDeployment_only_ApiException w (info_name r)
                         (info_namespace r) (trace s) e Hw) as Hne.
  destruct (resolveDeployment w (info_name r) (info_namespace r) (trace s))
    as [res h]. cbn [fst snd] in *. subst h.
  destruct res as [d ns|[|]|[e|e]].
  - destruct dry.
    + rewrite remediate_dry_run. eexists _, _, evs.
      split; [reflexivity|]. split; [reflexivity|]. split; [exact Hp|].
      rewrite Hf. discriminate.
    + rewrite remediate_run. cbn zeta. cbn [trace with_trace].
      pose proof Hw as (_ & _ & _ & _ & Hpatch).
      specialize (Hpatch (trace s ++ evs) d (info_namespace r)
                         (restart_patch (utcnow w (trace s ++ evs)))).
      destruct (patch_namespaced_deployment w (trace s ++ evs) d (info_namespace r) _)
        as [[]|[e|e]]; [| |destruct Hpatch].
      * eexists _, _, (evs ++ [_]).
        split; [reflexivity|]. split; [cbn; now rewrite app_assoc|].
        split; [rewrite pods_read_app, Hp; reflexivity|].
        rewrite existsb_app, Hf. discriminate.
      * eexists _, _, (evs ++ [_]).
        split; [reflexivity|]. split; [cbn; now rewrite app_assoc|].
        split; [rewrite pods_read_app, Hp; reflexivity|].
        intros _. split; [reflexivity|].
        rewrite remediation_errors_patch_failed. reflexivity.
  - eexists _, _, evs. split; [reflexivity|]. split; [reflexivity|].
    split; [exact Hp|]. rewrite Hf. discriminate.
  - eexists _, _, evs. split; [reflexivity|]. split; [reflexivity|].
    split; [exact Hp|]. rewrite Hf. discriminate.
  - eexists _, _, evs. split; [reflexivity|]. split; [reflexivity|].
    split; [exact Hp|]. intros _. split; [reflexivity|].
    rewrite remediation_errors_api_error. reflexivity.
  - now destruct (Hne e).
Qed.

(** The loop over the records of one namespace goes through all of them. *)
Lemma heal_pods_all w threshold dry ns records count s :
  raises_only_ApiException w ->
  exists n s',
    heal_pods w threshold dry ns records count s = (Ok n, s') /\
    pods_read (trace s') = pods_read (trace s) ++ map record_key records.
Proof.
  intros Hw. revert count s.
  induction records as [|r rest IH]; intros count s; cbn [heal_pods map].
  - exists count, s. split; [reflexivity|]. now rewrite app_nil_r.
  - unfold bind at 1. unfold logger at 1. unfold bind at 1.
    destruct (heal_deployment_isolated w dry r (logged INFO
                ("Pod " +:+ info_name r +:+ " in " +:+ ns +:+ " has "
                 +:+ pretty (info_restart_count r)
                 +:+ " restarts (threshold: " +:+ pretty threshold +:+ ")") s) Hw)
      as (b & s1 & evs & -> & Ht & Hp & _).
    cbn [trace logged] in Ht.
    destruct b.
    + unfold bind at 1. unfold sleep at 1.
      destruct (IH (S count) (emit (Sleep 2) s1)) as (n & s' & -> & Hs').
      exists n, s'. split; [reflexivity|].
      rewrite Hs'. cbn [trace emit]. rewrite Ht, !pods_read_app, Hp. cbn.
      now rewrite app_nil_r, <- app_assoc.
    + destruct (IH count s1) as (n & s' & -> & Hs').
      exists n, s'. split; [reflexivity|].
      rewrite Hs', Ht, pods_read_app, Hp. now rewrite <- app_assoc.
Qed.

(** So does the loop over the namespaces. *)
Lemma heal_namespaces_all w threshold dry items count s :
  raises_only_ApiException w ->
  exists n s',
    heal_namespaces w threshold dry items count s = (Ok n, s') /\
    pods_read (trace s')
    = pods_read (trace s) ++ map record_key (concat (map snd items)).
Proof.
  intros Hw. revert count s.
  induction items as [|[ns records] rest IH]; intros count s;
    cbn [heal_namespaces map concat snd].
  - exists count, s. split; [reflexivity|]. now rewrite app_nil_r.
  - unfold bind at 1.
    destruct (heal_pods_all w threshold dry ns records count s Hw) as (n1 & s1 & -> & H1).
    destruct (IH n1 s1) as (n & s' & -> & Hs').
    exists n, s'. split; [reflexivity|].
    now rewrite Hs', H1, map_app, app_assoc.
Qed.

Lemma still_cluster_raises_only_ApiException pods rss ds rejected :
  raises_only_ApiException (still_cluster pods rss ds rejected).
Proof.
  unfold raises_only_ApiException, still_cluster, lookup_named. cbn.
  repeat split; intros.
  - now destruct (List.find _ pods).
  - now destruct (List.find _ rss).
  - now destruct (existsb _ rejected).
Qed.



(** The third of the five is the one that fails: its patch is sent and
    rejected, it is the only one not healed, and the fourth and fifth are
    patched after it. *)
Example third_of_five_fails :
  let out := heal_namespaces batch_of_five 3 false [("portal", five_records)] 0
               initial_state in
  fst out = Ok 4%nat /\
  patched (trace (snd out))
  = [("deploy-1", "portal"); ("deploy-2", "portal"); ("deploy-3", "portal");
     ("deploy-4", "portal"); ("deploy-5", "portal")] /\
  List.filter is_failure (trace (snd out))
  = [Call (PatchDeployment "deploy-3" "portal"
             (restart_patch "2024-01-01T12:00:00+00:00")) false] /\
  remediation_errors (snd out) = 1%nat.
Proof. vm_compute. repeat split. Qed.

(** An error of another class than [ApiException] is not caught by
    [heal_deployment]; it reaches the handler of the cycle, which counts a
    cycle error, and the records after it are not looked at. *)
Example other_errors_end_the_cycle :
  let out := run_healing_cycle dropped_connection 3 false initial_state in
  fst out = Ok tt /\
  pods_read (trace (snd out)) = [("web-1", "portal")] /\
  counter (HEAL_ERRORS (snd out)) "cycle_error" = 1%nat /\
  remediation_errors (snd out) = 0%nat.
Proof. vm_compute. repeat split. Qed.

(** ** One record per container *)

(** [get_unhealthy_pods] appends a record for every container at or above
    the threshold, so a pod has as many records as it has such containers. *)
Lemma scan_containers_length threshold ns pod cs acc :
  length (scan_containers threshold ns pod cs acc)
  = (length acc + count_if (fun c => restart_count c >=? threshold) cs)%nat.
Proof.
  revert acc. induction cs as [|c cs IH]; intros acc; cbn [scan_containers].
  - unfold count_if. cbn. lia.
  - rewrite IH, count_if_cons.
    destruct (restart_count c >=? threshold); cbn [b2n]; [rewrite length_app; cbn|]; lia.
Qed.

(** C1, on the code.  One pod with two containers at or above the
    threshold gets two records; the cycle remediates the pod twice and
    patches its deployment twice. *)
Theorem pod_remediated_once_per_container :
  let s := snd (run_healing_cycle crashloop_cluster 3 false initial_state) in
  length (list_items (container_statuses crashing_pod)) = 2%nat /\
  pods_read (trace s) = [("web-1", "portal"); ("web-1", "portal")] /\
  patched (trace s) = [("web", "portal"); ("web", "portal")] /\
  counter (HEAL_ACTIONS s) ("restart", "portal", "web") = 2%nat /\
  UNHEALTHY_PODS s = 2.
Proof. vm_compute. repeat split. Qed.

(** * Further properties *)

(** ** The scan for unhealthy pods (AutoHealerService.get_unhealthy_pods) *)

Lemma scan_containers_spec threshold ns pod cs acc :
  scan_containers threshold ns pod cs acc
  = acc ++ map (record_for ns pod) (at_or_above threshold cs).
Proof.
  revert acc. induction cs as [|c cs IH]; intros acc; cbn [scan_containers].
  - cbn. now rewrite app_nil_r.
  - rewrite IH. unfold at_or_above. cbn [List.filter].
    destruct (restart_count c >=? threshold); [|reflexivity].
    now rewrite <- app_assoc.
Qed.

Lemma scan_pods_spec threshold ns pods acc :
  scan_pods threshold ns pods acc
  = acc ++ flat_map (records_of_pod threshold ns) pods.
Proof.
  revert acc. induction pods as [|pod pods IH]; intros acc; cbn [scan_pods flat_map].
  - now rewrite app_nil_r.
  - rewrite IH, app_assoc. f_equal. unfold records_of_pod.
    destruct (container_statuses pod) as [[|c cs]|]; cbn [list_truthy list_items].
    + cbn. now rewrite app_nil_r.
    + apply scan_containers_spec.
    + cbn. now rewrite app_nil_r.
Qed.

(** X1.  The records found in a namespace are exactly the containers at or
    above the threshold, pod by pod and container by container in the
    order listed: a record is in the result if and only if it is the
    record of such a container of a listed pod.  In particular every
    record carries the namespace scanned and a restart count at or above
    the threshold. *)
Theorem scan_pods_sound_complete threshold ns pods :
  scan_pods threshold ns pods [] = flat_map (records_of_pod threshold ns) pods /\
  (forall r, In r (scan_pods threshold ns pods []) <->
     exists pod c, In pod pods /\ In c (list_items (container_statuses pod)) /\
                   threshold <= restart_count c /\ r = record_for ns pod c) /\
  (forall r, In r (scan_pods threshold ns pods []) ->
     info_namespace r = ns /\ threshold <= info_restart_count r).
Proof.
  assert (Hiff : forall r, In r (scan_pods threshold ns pods []) <->
     exists pod c, In pod pods /\ In c (list_items (container_statuses pod)) /\
                   threshold <= restart_count c /\ r = record_for ns pod c).
  { intros r. rewrite scan_pods_spec. cbn [app]. rewrite in_flat_map. split.
    - intros (pod & Hpod & Hr). unfold records_of_pod, at_or_above in Hr.
      apply in_map_iff in Hr as (c & <- & Hc).
      apply filter_In in Hc as (Hc & Hge). rewrite Z.geb_leb in Hge.
      apply Z.leb_le in Hge. eauto 10.
    - intros (pod & c & Hpod & Hc & Hge & ->). exists pod. split; [assumption|].
      unfold records_of_pod, at_or_above. apply in_map, filter_In.
      split; [assumption|]. rewrite Z.geb_leb. now apply Z.leb_le. }
  split; [now rewrite scan_pods_spec|]. split; [exact Hiff|].
  intros r Hr. apply Hiff in Hr as (pod & c & _ & _ & Hge & ->). now split.
Qed.

Lemma existsb_at_or_above threshold cs :
  0 < threshold ->
  existsb (fun c => restart_count c >=? threshold) cs = (max_restart cs >=? threshold).
Proof.
  intros Ht. induction cs as [|c cs IH]; cbn.
  - symmetry. rewrite Z.geb_leb. apply Z.leb_gt. lia.
  - fold (max_restart cs). rewrite IH, !Z.geb_leb.
    destruct (Z.leb_spec threshold (restart_count c)),
             (Z.leb_spec threshold (max_restart cs)),
             (Z.leb_spec threshold (Z.max (restart_count c) (max_restart cs)));
      cbn; (reflexivity || lia).
Qed.

Lemma records_of_pod_nil threshold ns pod :
  records_of_pod threshold ns pod = [] <->
  existsb (fun c => restart_count c >=? threshold) (list_items (container_statuses pod))
  = false.
Proof.
  unfold records_of_pod, at_or_above.
  induction (list_items (container_statuses pod)) as [|c cs IH]; cbn; [tauto|].
  destruct (restart_count c >=? threshold); cbn; [split; discriminate|exact IH].
Qed.

(** X2.  The scan and [is_pod_unhealthy] agree on a pod for every
    threshold of 1 or more: the pod has a record exactly when
    [is_pod_unhealthy] answers [True], that is when some container is at
    or above the threshold.  At a threshold of 0 or less they part on a
    pod without container statuses: the scan has no record for it,
    [is_pod_unhealthy] answers [True]. *)
Theorem scan_agrees_with_is_pod_unhealthy w threshold n ns s pod scanned :
  read_namespaced_pod w (trace s) n ns = Ok pod ->
  (0 < threshold ->
     fst (is_pod_unhealthy w threshold n ns s)
     = Ok (existsb (fun c => restart_count c >=? threshold)
                   (list_items (container_statuses pod))) /\
     (scan_pods threshold scanned [pod] [] <> [] <->
      fst (is_pod_unhealthy w threshold n ns s) = Ok true)) /\
  (threshold <= 0 -> list_truthy (container_statuses pod) = false ->
     scan_pods threshold scanned [pod] [] = [] /\
     fst (is_pod_unhealthy w threshold n ns s) = Ok true).
Proof.
  intros E.
  assert (R : fst (is_pod_unhealthy w threshold n ns s)
              = Ok (max_restart (list_items (container_statuses pod)) >=? threshold)).
  { unfold is_pod_unhealthy, bind.
    pose proof (get_pod_restart_count_value w n ns s pod E) as Hv.
    destruct (get_pod_restart_count w n ns s) as [[v|e] s1]; cbn in Hv |- *;
      congruence. }
  split.
  - intros Ht. rewrite R, <- existsb_at_or_above by assumption.
    split; [reflexivity|].
    rewrite scan_pods_spec. cbn [flat_map app]. rewrite app_nil_r.
    destruct (existsb _ _) eqn:Hex.
    + split; [reflexivity|]. intros _ Hnil.
      apply records_of_pod_nil in Hnil. congruence.
    + split; [|discriminate]. intros Hne. exfalso. apply Hne.
      now apply records_of_pod_nil.
  - intros Ht Hf. split.
    + cbn [scan_pods]. now rewrite Hf.
    + rewrite R.
      assert (max_restart (list_items (container_statuses pod)) = 0) as ->.
      { destruct (container_statuses pod) as [[|c cs]|]; try discriminate; reflexivity. }
      f_equal. rewrite Z.geb_leb. apply Z.leb_le. lia.
Qed.

Lemma scan_agrees_with_is_pod_unhealthy_witness :
  fst (is_pod_unhealthy restart_cluster 3 "web-1" "portal" initial_state) = Ok true /\
  scan_pods 3 "portal" [two_containers] [] <> [] /\
  scan_pods 0 "portal" [no_statuses] [] = [] /\
  fst (is_pod_unhealthy restart_cluster 0 "idle-1" "portal" initial_state) = Ok true.
Proof.
  destruct (scan_agrees_with_is_pod_unhealthy restart_cluster 3 "web-1" "portal"
              initial_state two_containers "portal" eq_refl) as (H & _).
  destruct (H ltac:(lia)) as (E & Hiff).
  destruct (scan_agrees_with_is_pod_unhealthy restart_cluster 0 "idle-1" "portal"
              initial_state no_statuses "portal" eq_refl) as (_ & H0).
  destruct (H0 ltac:(lia) eq_refl) as (Hs & Hu).
  split; [exact E|]. split; [apply Hiff; exact E|]. split; [exact Hs|exact Hu].
Defined.

(** ** Reading one pod (PodRestartHealer) *)

(** X3.  [is_pod_unhealthy] sends one request, the read of the pod,
    touches no metric and never raises an [ApiException].  When the read
    raises one, an error is logged and the pod is taken to have restarted
    0 times: it is reported healthy for every threshold of 1 or more. *)
Theorem is_pod_unhealthy_unreadable w threshold n ns s :
  let out := is_pod_unhealthy w threshold n ns s in
  let answer := read_namespaced_pod w (trace s) n ns in
  trace (snd out) = trace s ++ [Call (ReadPod n ns) (is_ok answer)] /\
  HEAL_ACTIONS (snd out) = HEAL_ACTIONS s /\ HEAL_ERRORS (snd out) = HEAL_ERRORS s /\
  (forall e, fst out <> Raise (ApiException e)) /\
  (forall e, answer = Raise (ApiException e) ->
     fst out = Ok (0 >=? threshold) /\
     (0 < threshold -> fst out = Ok false) /\
     log (snd out)
     = log s ++ [(ERROR, "Failed to get restart count for pod " +:+ n +:+ ": " +:+ e)]).
Proof.
  cbn zeta. unfold is_pod_unhealthy, bind. rewrite get_pod_restart_count_run.
  destruct (read_namespaced_pod w (trace s) n ns) as [pod|[e|e]]; cbn;
    (split; [reflexivity|]); (split; [reflexivity|]); (split; [reflexivity|]);
    (split; [discriminate|]); try discriminate.
  intros e' [= <-]. split; [reflexivity|]. split; [|reflexivity].
  intros Ht. f_equal. rewrite Z.geb_leb. apply Z.leb_gt. lia.
Qed.

Lemma is_pod_unhealthy_unreadable_witness :
  fst (is_pod_unhealthy restart_cluster 3 "gone-1" "portal" initial_state) = Ok false.
Proof.
  destruct (is_pod_unhealthy_unreadable restart_cluster 3 "gone-1" "portal" initial_state)
    as (_ & _ & _ & _ & H).
  destruct (H "(404) Not Found" eq_refl) as (_ & Hf & _).
  apply Hf. lia.
Defined.

(** ** Restarting a deployment (DeploymentPatcher.restart_deployment) *)

(** X4.  [restart_deployment] sends exactly one request, a patch of the
    named deployment in the named namespace, whose body sets both restart
    annotations to the same current time and the reason to
    high-restart-count.  It answers [True] exactly when the patch was
    accepted and [False] exactly when it raised an [ApiException], which
    it never lets through; it touches no metric. *)
Theorem restart_deployment_outcome w d ns s :
  let body := restart_patch (utcnow w (trace s)) in
  let answer := patch_namespaced_deployment w (trace s) d ns body in
  let out := restart_deployment w d ns s in
  trace (snd out) = trace s ++ [Call (PatchDeployment d ns body) (is_ok answer)] /\
  HEAL_ACTIONS (snd out) = HEAL_ACTIONS s /\ HEAL_ERRORS (snd out) = HEAL_ERRORS s /\
  (forall e, fst out <> Raise (ApiException e)) /\
  (fst out = Ok true <-> is_ok answer = true) /\
  (fst out = Ok false <-> exists e, answer = Raise (ApiException e)) /\
  dict_get body "kubectl.kubernetes.io/restartedAt" = Some (utcnow w (trace s)) /\
  dict_get body "auto-healer/restarted-at" = Some (utcnow w (trace s)) /\
  dict_get body "auto-healer/reason" = Some "high-restart-count".
Proof.
  cbn zeta. rewrite restart_deployment_run. cbn zeta.
  destruct (patch_namespaced_deployment w (trace s) d ns _) as [[]|[e|e]]; cbn;
    repeat split; try discriminate; try (intros [e' He']; discriminate); eauto.
Qed.

(** ** The namespace summary on errors (NamespaceHealthChecker) *)

(** X5.  [get_namespace_health_summary] only lists: it sends no patch and
    touches no metric.  An [ApiException] from either list is not let
    through: the result is then the error dictionary, with the namespace
    and the message of the exception, and an error is logged.  When it is
    the pod list that fails, the deployments are not listed at all; when
    it is the deployment list, the pod counts already made are dropped. *)
Theorem summary_error_path w ns s :
  let out := get_namespace_health_summary w ns s in
  let h1 := trace s ++ [Call (ListPods ns) false] in
  let h2 := trace s ++ [Call (ListPods ns) true] in
  mutating_calls (trace (snd out)) = mutating_calls (trace s) /\
  HEAL_ACTIONS (snd out) = HEAL_ACTIONS s /\ HEAL_ERRORS (snd out) = HEAL_ERRORS s /\
  (forall e, fst out <> Raise (ApiException e)) /\
  (forall e, list_namespaced_pod w (trace s) ns = Raise (ApiException e) ->
     fst out = Ok (SummaryError ns e (utcnow w h1)) /\ trace (snd out) = h1 /\
     log (snd out)
     = log s ++ [(ERROR, "Failed to get namespace health summary for "
                         +:+ ns +:+ ": " +:+ e)]) /\
  (forall pods e, list_namespaced_pod w (trace s) ns = Ok pods ->
     list_namespaced_deployment w h2 ns = Raise (ApiException e) ->
     fst out = Ok (SummaryError ns e (utcnow w (h2 ++ [Call (ListDeployments ns) false])))
     /\ trace (snd out) = h2 ++ [Call (ListDeployments ns) false]).
Proof.
  cbn zeta.
  unfold get_namespace_health_summary, try_except_ApiException, bind, now, call, logger.
  destruct (list_namespaced_pod w (trace s) ns) as [pods|[e|e]]; cbn.
  - destruct (list_namespaced_deployment w _ ns) as [ds|[e|e]]; cbn;
      rewrite ?mutating_calls_app; cbn; rewrite ?app_nil_r;
      (split; [reflexivity|]); (split; [reflexivity|]); (split; [reflexivity|]);
      (split; [discriminate|]); (split; [discriminate|]); try discriminate.
    intros pods' e' _ [= <-]. split; reflexivity.
  - rewrite ?mutating_calls_app; cbn; rewrite ?app_nil_r.
    split; [reflexivity|]. split; [reflexivity|]. split; [reflexivity|].
    split; [discriminate|]. split; [|discriminate].
    intros e' [= <-]. repeat split.
  - rewrite ?mutating_calls_app; cbn; rewrite ?app_nil_r.
    split; [reflexivity|]. split; [reflexivity|]. split; [reflexivity|].
    split; [discriminate|]. split; discriminate.
Qed.

Lemma summary_error_path_witness :
  fst (get_namespace_health_summary forbidden_namespace "hrt-sre" initial_state)
  = Ok (SummaryError "hrt-sre" "(403) Forbidden" "2024-01-01T12:00:00+00:00") /\
  fst (get_namespace_health_summary forbidden_namespace "portal" initial_state)
  = Ok (SummaryError "portal" "(403) Forbidden" "2024-01-01T12:00:00+00:00").
Proof.
  split.
  - destruct (summary_error_path forbidden_namespace "hrt-sre" initial_state)
      as (_ & _ & _ & _ & H & _).
    exact (proj1 (H "(403) Forbidden" eq_refl)).
  - destruct (summary_error_path forbidden_namespace "portal" initial_state)
      as (_ & _ & _ & _ & _ & H).
    exact (proj1 (H _ "(403) Forbidden" eq_refl eq_refl)).
Defined.

Lemma has_restarting_container_records ns pod :
  has_restarting_container pod = nonempty (records_of_pod 3 ns pod).
Proof.
  unfold has_restarting_container, records_of_pod, at_or_above.
  induction (list_items (container_statuses pod)) as [|c cs IH]; [reflexivity|].
  cbn. destruct (restart_count c >=? 3); [reflexivity|exact IH].
Qed.

(** X6.  The summary and the scan at threshold 3 look at the same
    containers but count differently: the summary counts a pod once when
    the scan has at least one record for it, so its unhealthy count is at
    most the number of records the scan finds in the same pods. *)
Theorem summary_counts_pods_scan_counts_containers w ns s pods ds :
  list_namespaced_pod w (trace s) ns = Ok pods ->
  list_namespaced_deployment w (trace s ++ [Call (ListPods ns) true]) ns = Ok ds ->
  exists p d ts,
    fst (get_namespace_health_summary w ns s) = Ok (Summary ns p d ts) /\
    unhealthy p
    = count_if (fun pod => nonempty (records_of_pod 3 ns pod)) pods /\
    (unhealthy p <= length (scan_pods 3 ns pods []))%nat.
Proof.
  intros Hp Hd. rewrite (get_namespace_health_summary_run w ns s pods ds Hp Hd).
  eexists _, _, _. split; [reflexivity|].
  destruct (count_pods_spec pods no_pods) as (_ & _ & _ & _ & Hu).
  cbn [unhealthy no_pods] in Hu. rewrite Hu. cbn [Nat.add]. clear.
  rewrite scan_pods_spec. cbn [app]. split.
  - induction pods as [|pod pods IH]; [reflexivity|].
    rewrite !count_if_cons, IH, (has_restarting_container_records ns). reflexivity.
  - induction pods as [|pod pods IH]; [reflexivity|].
    rewrite count_if_cons. cbn [flat_map]. rewrite length_app.
    rewrite (has_restarting_container_records ns).
    destruct (records_of_pod 3 ns pod); cbn; lia.
Qed.

Lemma summary_counts_pods_scan_counts_containers_witness :
  exists p d ts,
    fst (get_namespace_health_summary batch_namespace "batch" initial_state)
    = Ok (Summary "batch" p d ts) /\
    (unhealthy p <= 2)%nat.
Proof.
  destruct (summary_counts_pods_scan_counts_containers batch_namespace "batch"
              initial_state _ _ eq_refl eq_refl) as (p & d & ts & E & _ & Hle).
  exists p, d, ts. split; [exact E|exact Hle].
Defined.

(** ** The dictionary of unhealthy pods *)

Lemma dict_setitem_keys {V} (d : list (string * V)) k v :
  map fst (dict_setitem d k v)
  = if existsb (String.eqb k) (map fst d) then map fst d else map fst d ++ [k].
Proof.
  induction d as [|[k' v'] d IH]; cbn; [reflexivity|].
  rewrite (String.eqb_sym k k').
  destruct (String.eqb k' k) eqn:E; cbn; [reflexivity|].
  rewrite IH. now destruct (existsb _ _).
Qed.

Lemma dict_setitem_In {V} (d : list (string * V)) k v k' v' :
  In (k', v') (dict_setitem d k v) -> (k', v') = (k, v) \/ In (k', v') d.
Proof.
  induction d as [|[k0 v0] d IH]; cbn.
  - intros [H|[]]. now left.
  - destruct (String.eqb k0 k) eqn:E; cbn.
    + apply String.eqb_eq in E. subst k0. intros [H|H]; [left|right; right]; auto.
    + intros [H|H]; [right; left; exact H|].
      destruct (IH H); [now left|right; now right].
Qed.

Lemma dict_setitem_NoDup {V} (d : list (string * V)) k v :
  NoDup (map fst d) -> NoDup (map fst (dict_setitem d k v)).
Proof.
  intros Hd. rewrite dict_setitem_keys.
  destruct (existsb (String.eqb k) (map fst d)) eqn:E; [assumption|].
  apply NoDup_app. split; [assumption|]. split; [|apply NoDup_singleton].
  intros x Hx Hk. apply list_elem_of_In in Hx. apply list_elem_of_In in Hk.
  destruct Hk as [<-|[]].
  assert (existsb (String.eqb k) (map fst d) = true); [|congruence].
  apply existsb_exists. exists k. split; [assumption|apply String.eqb_refl].
Qed.

Lemma unhealthy_dict_setitem threshold d ns pods :
  unhealthy_dict threshold d ->
  scan_pods threshold ns pods [] <> [] ->
  unhealthy_dict threshold (dict_setitem d ns (scan_pods threshold ns pods [])).
Proof.
  intros (Hnd & Hd) Hne. split; [now apply dict_setitem_NoDup|].
  intros k v Hin. apply dict_setitem_In in Hin as [[= -> ->]|Hin]; [|now apply Hd].
  split; [assumption|]. intros r Hr.
  rewrite scan_pods_spec in Hr. cbn [app] in Hr.
  apply in_flat_map in Hr as (pod & _ & Hr).
  unfold records_of_pod, at_or_above in Hr.
  apply in_map_iff in Hr as (c & <- & Hc). apply filter_In in Hc as (_ & Hge).
  rewrite Z.geb_leb in Hge. apply Z.leb_le in Hge. now split.
Qed.

Lemma listed_app a b : listed (a ++ b) = listed a ++ listed b.
Proof.
  induction a as [|ev a IH]; [reflexivity|].
  destruct ev as [[]|]; cbn; rewrite ?IH; reflexivity.
Qed.

Lemma count_if_app {A} (f : A -> bool) a b :
  count_if f (a ++ b) = (count_if f a + count_if f b)%nat.
Proof. unfold count_if. now rewrite List.filter_app, length_app. Qed.

(** One turn of the loop over the namespaces. *)
Lemma scan_namespaces_cons w threshold ns rest d s :
  scan_namespaces w threshold (ns :: rest) d s =
  match list_namespaced_pod w (trace s) ns with
  | Ok pods =>
      let s1 := emit (Call (ListPods ns) true) s in
      match scan_pods threshold ns pods [] with
      | [] => scan_namespaces w threshold rest d s1
      | r0 :: rs =>
          scan_namespaces w threshold rest (dict_setitem d ns (r0 :: rs))
            (logged INFO ("Found " +:+ pretty (length (r0 :: rs))
                          +:+ " unhealthy pods in namespace " +:+ ns) s1)
      end
  | Raise (ApiException e) =>
      scan_namespaces w threshold rest d
        (error_counted "api_error"
           (logged ERROR ("Failed to list pods in namespace " +:+ ns +:+ ": " +:+ e)
                   (emit (Call (ListPods ns) false) s)))
  | Raise (Exception e) => (Raise (Exception e), emit (Call (ListPods ns) false) s)
  end.
Proof.
  cbn [scan_namespaces].
  unfold bind at 1. unfold try_except_ApiException, bind, call, logger, HEAL_ERRORS_inc.
  destruct (list_namespaced_pod w (trace s) ns) as [pods|[e|e]]; cbn [is_ok];
    try reflexivity.
  now destruct (scan_pods threshold ns pods []).
Qed.

(** The loop over the namespaces, in any cluster: it only lists pods, one
    list per namespace until a list raises something else than an
    [ApiException]; it counts one [api_error] per list that failed and
    leaves the other metrics alone; and it keeps the dictionary well
    formed. *)
Lemma scan_namespaces_effects w threshold namespaces d s :
  let out := scan_namespaces w threshold namespaces d s in
  exists evs,
    trace (snd out) = trace s ++ evs /\
    forallb is_list_pods evs = true /\
    HEAL_ACTIONS (snd out) = HEAL_ACTIONS s /\
    UNHEALTHY_PODS (snd out) = UNHEALTHY_PODS s /\
    (forall k, k <> "api_error" ->
       counter (HEAL_ERRORS (snd out)) k = counter (HEAL_ERRORS s) k) /\
    (forall e, fst out <> Raise (ApiException e)) /\
    (raises_only_ApiException w -> exists d', fst out = Ok d') /\
    (forall d', fst out = Ok d' ->
       listed evs = namespaces /\
       counter (HEAL_ERRORS (snd out)) "api_error"
       = (counter (HEAL_ERRORS s) "api_error" + count_if is_failure evs)%nat /\
       (unhealthy_dict threshold d -> unhealthy_dict threshold d') /\
       (forall k v, In (k, v) d' -> In (k, v) d \/ In k namespaces)).
Proof.
  cbn zeta. revert d s.
  induction namespaces as [|ns rest IH]; intros d s.
  - exists []. cbn. rewrite app_nil_r.
    split; [reflexivity|]. split; [reflexivity|]. split; [reflexivity|].
    split; [reflexivity|]. split; [reflexivity|]. split; [discriminate|].
    split; [eauto|].
    intros d' [= <-]. split; [reflexivity|]. split; [unfold count_if; cbn; lia|].
    split; [auto|]. intros k v H. now left.
  - rewrite scan_namespaces_cons.
    destruct (list_namespaced_pod w (trace s) ns) as [pods|[e|e]] eqn:El; cbn zeta.
    + (* the list is answered *)
      assert (Hstep : exists d1 s2,
        match scan_pods threshold ns pods [] with
        | [] => scan_namespaces w threshold rest d (emit (Call (ListPods ns) true) s)
        | r0 :: rs =>
            scan_namespaces w threshold rest (dict_setitem d ns (r0 :: rs))
              (logged INFO ("Found " +:+ pretty (length (r0 :: rs))
                            +:+ " unhealthy pods in namespace " +:+ ns)
                      (emit (Call (ListPods ns) true) s))
        end = scan_namespaces w threshold rest d1 s2 /\
        trace s2 = trace s ++ [Call (ListPods ns) true] /\
        HEAL_ACTIONS s2 = HEAL_ACTIONS s /\
        UNHEALTHY_PODS s2 = UNHEALTHY_PODS s /\ HEAL_ERRORS s2 = HEAL_ERRORS s /\
        (unhealthy_dict threshold d -> unhealthy_dict threshold d1) /\
        (forall k v, In (k, v) d1 -> In (k, v) d \/ k = ns)).
      { destruct (scan_pods threshold ns pods []) as [|r0 rs] eqn:Es.
        - eexists _, _. do 5 (split; [reflexivity|]). split; auto.
        - eexists _, _. do 5 (split; [reflexivity|]). split.
          + intros Hd. rewrite <- Es. apply unhealthy_dict_setitem; [assumption|].
            rewrite Es. discriminate.
          + intros k v Hin. apply dict_setitem_In in Hin as [[= -> _]|Hin]; auto. }
      destruct Hstep as (d1 & s2 & -> & Ht2 & Ha2 & Hu2 & He2 & Hwf & Hin).
      destruct (IH d1 s2) as (evs & Ht & Hl & Ha & Hu & Hother & Hnr & Htot & Hok).
      exists (Call (ListPods ns) true :: evs).
      split; [rewrite Ht, Ht2; now rewrite <- app_assoc|].
      split; [exact Hl|]. split; [congruence|]. split; [congruence|].
      split; [intros k Hk; rewrite (Hother k Hk), He2; reflexivity|].
      split; [exact Hnr|]. split; [exact Htot|].
      intros d' Hd'. destruct (Hok d' Hd') as (Hls & Hc & Hwf' & Hin').
      split; [cbn; now rewrite Hls|].
      split; [rewrite Hc, He2, count_if_cons; cbn; reflexivity|].
      split; [auto|].
      intros k v Hkv. destruct (Hin' k v Hkv) as [H|H]; [|right; now right].
      destruct (Hin k v H) as [H' | ->]; [now left|right; now left].
    + (* the list raises an ApiException *)
      set (s2 := error_counted "api_error"
                   (logged ERROR ("Failed to list pods in namespace " +:+ ns +:+ ": " +:+ e)
                           (emit (Call (ListPods ns) false) s))).
      destruct (IH d s2) as (evs & Ht & Hl & Ha & Hu & Hother & Hnr & Htot & Hok).
      exists (Call (ListPods ns) false :: evs).
      split; [rewrite Ht; subst s2; cbn; now rewrite <- app_assoc|].
      split; [exact Hl|]. split; [exact Ha|]. split; [exact Hu|].
      split.
      { intros k Hk. rewrite (Hother k Hk). subst s2. cbn [HEAL_ERRORS error_counted].
        apply counter_inc_other. congruence. }
      split; [exact Hnr|]. split; [exact Htot|].
      intros d' Hd'. destruct (Hok d' Hd') as (Hls & Hc & Hwf' & Hin').
      split; [cbn; now rewrite Hls|].
      split.
      { rewrite Hc, count_if_cons. subst s2. cbn [HEAL_ERRORS error_counted].
        rewrite counter_inc_same. cbn. lia. }
      split; [exact Hwf'|].
      intros k v Hkv. destruct (Hin' k v Hkv) as [H|H]; [now left|right; now right].
    + (* the list raises something else *)
      exists [Call (ListPods ns) false]. cbn.
      split; [reflexivity|]. split; [reflexivity|]. split; [reflexivity|].
      split; [reflexivity|]. split; [reflexivity|]. split; [discriminate|].
      split; [|discriminate].
      intros (Hlp & _). specialize (Hlp (trace s) ns). rewrite El in Hlp. destruct Hlp.
Qed.

Lemma forbidden_namespace_raises_only_ApiException :
  raises_only_ApiException forbidden_namespace.
Proof.
  destruct (still_cluster_raises_only_ApiException
              [("portal", "web-1", crashing_pod)]
              [("portal", "web-rs",
                {| rs_owner_references := Some [owner "Deployment" "web"] |})]
              [] []) as (H1 & H2 & H3 & H4 & H5).
  split; [|split; [|split; [|split]]]; intros; cbn.
  - destruct (String.eqb ns "hrt-sre"); [exact I|apply (H1 h ns)].
  - apply (H2 h n ns).
  - apply (H3 h n ns).
  - destruct (String.eqb ns "portal"); [exact I|apply (H4 h ns)].
  - apply (H5 h n ns body).
Qed.

(** X7.  With a client whose failures are [ApiException]s,
    [get_unhealthy_pods] always returns a dictionary: it lists the pods of
    every namespace asked for, in order, a namespace whose list fails
    costing one [api_error] and nothing else.  The dictionary has no key
    twice, only keys among the namespaces asked for, no empty value, and
    under each key only records of that namespace at or above the
    threshold. *)
Theorem get_unhealthy_pods_isolates_namespaces w threshold namespaces s :
  raises_only_ApiException w ->
  exists d s' evs,
    get_unhealthy_pods w threshold namespaces s = (Ok d, s') /\
    trace s' = trace s ++ evs /\
    forallb is_list_pods evs = true /\
    listed evs = namespaces_scanned namespaces /\
    counter (HEAL_ERRORS s') "api_error"
    = (counter (HEAL_ERRORS s) "api_error" + count_if is_failure evs)%nat /\
    unhealthy_dict threshold d /\
    (forall k v, In (k, v) d -> In k (namespaces_scanned namespaces)).
Proof.
  intros Hw. unfold get_unhealthy_pods. fold (namespaces_scanned namespaces).
  destruct (scan_namespaces_effects w threshold (namespaces_scanned namespaces) [] s)
    as (evs & Ht & Hl & _ & _ & _ & _ & Htot & Hok).
  destruct (Htot Hw) as (d & Hd). destruct (Hok d Hd) as (Hls & Hc & Hwf & Hin).
  destruct (scan_namespaces w threshold (namespaces_scanned namespaces) [] s)
    as [res s'] eqn:E. cbn [fst snd] in *. subst res.
  exists d, s', evs. split; [reflexivity|].
  split; [exact Ht|]. split; [exact Hl|]. split; [exact Hls|]. split; [exact Hc|].
  split.
  - apply Hwf. split; [constructor|intros k v []].
  - intros k v Hkv. destruct (Hin k v Hkv) as [[]|H]. exact H.
Qed.

Lemma get_unhealthy_pods_isolates_namespaces_witness :
  exists d s' evs,
    get_unhealthy_pods forbidden_namespace 3 None initial_state = (Ok d, s') /\
    listed evs = ["portal"; "hrt-sre"] /\
    counter (HEAL_ERRORS s') "api_error" = (0 + count_if is_failure evs)%nat.
Proof.
  destruct (get_unhealthy_pods_isolates_namespaces forbidden_namespace 3 None
              initial_state forbidden_namespace_raises_only_ApiException)
    as (d & s' & evs & E & _ & _ & Hl & Hc & _).
  exists d, s', evs. split; [exact E|]. split; [exact Hl|exact Hc].
Defined.

(** The namespace that could not be listed is missing from the result,
    the other is there with one record per container. *)
Example forbidden_namespace_is_skipped :
  let out := get_unhealthy_pods forbidden_namespace 3 None initial_state in
  fst out
  = Ok [("portal", [record_for "portal" crashing_pod (container "app" 5);
                    record_for "portal" crashing_pod (container "sidecar" 4)])] /\
  trace (snd out) = [Call (ListPods "portal") true; Call (ListPods "hrt-sre") false] /\
  counter (HEAL_ERRORS (snd out)) "api_error" = 1%nat.
Proof. vm_compute. repeat split. Qed.

(** X8.  In any cluster [get_unhealthy_pods] only lists pods: every
    request it sends is a list of pods, so it sends no patch and reads no
    single object; it leaves the action counters and the gauge alone, and
    of the error counters it can only raise [api_error]; it never lets an
    [ApiException] through. *)
Theorem get_unhealthy_pods_only_lists w threshold namespaces s :
  let out := get_unhealthy_pods w threshold namespaces s in
  (exists evs, trace (snd out) = trace s ++ evs /\ forallb is_list_pods evs = true) /\
  mutating_calls (trace (snd out)) = mutating_calls (trace s) /\
  pods_read (trace (snd out)) = pods_read (trace s) /\
  HEAL_ACTIONS (snd out) = HEAL_ACTIONS s /\
  UNHEALTHY_PODS (snd out) = UNHEALTHY_PODS s /\
  (forall k, k <> "api_error" ->
     counter (HEAL_ERRORS (snd out)) k = counter (HEAL_ERRORS s) k) /\
  (forall e, fst out <> Raise (ApiException e)).
Proof.
  cbn zeta. unfold get_unhealthy_pods. fold (namespaces_scanned namespaces).
  destruct (scan_namespaces_effects w threshold (namespaces_scanned namespaces) [] s)
    as (evs & Ht & Hl & Ha & Hu & Hother & Hnr & _).
  assert (Hq : mutating_calls evs = [] /\ pods_read evs = []).
  { clear -Hl. induction evs as [|ev evs IH]; [now split|].
    cbn in Hl. apply andb_true_iff in Hl as (Hev & Hl).
    destruct ev as [[]|]; try discriminate. cbn. now apply IH. }
  destruct Hq as (Hm & Hp).
  split; [eauto|].
  split; [now rewrite Ht, mutating_calls_app, Hm, app_nil_r|].
  split; [now rewrite Ht, pods_read_app, Hp, app_nil_r|].
  auto.
Qed.

(** ** One remediation, in any cluster *)

Lemma sleeps_app a b : sleeps (a ++ b) = sleeps a ++ sleeps b.
Proof.
  induction a as [|ev a IH]; [reflexivity|].
  destruct ev as [[]|]; cbn; rewrite ?IH; reflexivity.
Qed.

(** What a run of reads cannot contain. *)
Lemma reads_only evs :
  forallb is_read evs = true ->
  mutating_calls evs = [] /\ patched evs = [] /\ sleeps evs = [] /\ listed evs = [] /\
  count_if is_accepted_patch evs = 0%nat.
Proof.
  induction evs as [|ev evs IH]; [now repeat split|].
  cbn [forallb]. intros H. apply andb_true_iff in H as (Hev & H).
  destruct (IH H) as (H1 & H2 & H3 & H4 & H5).
  rewrite count_if_cons.
  destruct ev as [[] ok|]; try discriminate; cbn; rewrite ?H5; now repeat split.
Qed.

Lemma resolve_owners_reads w ns owners h :
  exists evs, snd (resolve_owners w ns h owners) = h ++ evs /\ forallb is_read evs = true.
Proof.
  revert h. induction owners as [|o rest IH]; intros h; cbn [resolve_owners].
  - exists []. cbn. now rewrite app_nil_r.
  - destruct (String.eqb (kind o) "ReplicaSet"); [|apply IH].
    destruct (read_namespaced_replica_set w h (owner_name o) ns) as [rs|e].
    + destruct (first_deployment (list_items (rs_owner_references rs))) as [d|].
      * eexists [_]. cbn. now split.
      * destruct (IH (h ++ [Call (ReadReplicaSet (owner_name o) ns) true]))
          as (evs & E & Hr).
        exists (Call (ReadReplicaSet (owner_name o) ns) true :: evs).
        rewrite E, <- app_assoc. now split.
    + eexists [_]. cbn. now split.
Qed.

Lemma resolveDeployment_reads w n ns h :
  exists evs,
    snd (resolveDeployment w n ns h) = h ++ evs /\
    forallb is_read evs = true /\ pods_read evs = [(n, ns)].
Proof.
  destruct (resolveDeployment_trace w n ns h) as (evs & E & _ & Hp & _).
  exists evs. split; [exact E|]. split; [|exact Hp].
  unfold resolveDeployment in E.
  destruct (read_namespaced_pod w h n ns) as [pod|e].
  - destruct (list_truthy (pod_owner_references pod)).
    + destruct (resolve_owners_reads w ns (list_items (pod_owner_references pod))
                  (h ++ [Call (ReadPod n ns) true])) as (evs' & E' & Hr).
      rewrite E', <- app_assoc in E. apply app_inv_head in E. now subst evs.
    + cbn in E. apply app_inv_head in E. now subst evs.
  - cbn in E. apply app_inv_head in E. now subst evs.
Qed.

Lemma result_eq_true_dec (x : result bool) : {x = Ok true} + {x <> Ok true}.
Proof.
  destruct x as [[|]|e]; [now left|right; discriminate|right; discriminate].
Qed.

(** Everything one call of [heal_deployment] can do. *)
Lemma heal_deployment_effects w dry r s :
  let out := heal_deployment w dry r s in
  exists evs,
    trace (snd out) = trace s ++ evs /\
    pods_read evs = [record_key r] /\ sleeps evs = [] /\ listed evs = [] /\
    (length (patched evs) <= 1)%nat /\
    (dry = true -> mutating_calls evs = []) /\
    UNHEALTHY_PODS (snd out) = UNHEALTHY_PODS s /\
    counter (HEAL_ERRORS (snd out)) "cycle_error" = counter (HEAL_ERRORS s) "cycle_error" /\
    (forall e, fst out <> Raise (ApiException e)) /\
    (fst out = Ok true ->
       count_if is_accepted_patch evs = (if dry then 0 else 1)%nat /\
       HEAL_ERRORS (snd out) = HEAL_ERRORS s /\
       exists d,
         HEAL_ACTIONS (snd out)
         = counter_inc (HEAL_ACTIONS s)
             (if dry then "dry_run_restart" else "restart", info_namespace r, d) /\
         (dry = false -> patched evs = [(d, info_namespace r)])) /\
    (fst out <> Ok true ->
       count_if is_accepted_patch evs = 0%nat /\ HEAL_ACTIONS (snd out) = HEAL_ACTIONS s).
Proof.
  cbn zeta. rewrite heal_deployment_run.
  destruct (resolveDeployment_reads w (info_name r) (info_namespace r) (trace s))
    as (evs & E & Hr & Hp).
  destruct (reads_only evs Hr) as (Hm & Hpa & Hsl & Hls & Hacc).
  destruct (resolveDeployment w (info_name r) (info_namespace r) (trace s))
    as [res h]. cbn [snd] in E. subst h.
  assert (Hskip : forall (b : bool) s',
    b = false -> trace s' = trace s ++ evs ->
    UNHEALTHY_PODS s' = UNHEALTHY_PODS s -> HEAL_ACTIONS s' = HEAL_ACTIONS s ->
    counter (HEAL_ERRORS s') "cycle_error" = counter (HEAL_ERRORS s) "cycle_error" ->
    exists evs0,
      trace s' = trace s ++ evs0 /\
      pods_read evs0 = [record_key r] /\ sleeps evs0 = [] /\ listed evs0 = [] /\
      (length (patched evs0) <= 1)%nat /\
      (dry = true -> mutating_calls evs0 = []) /\
      UNHEALTHY_PODS s' = UNHEALTHY_PODS s /\
      counter (HEAL_ERRORS s') "cycle_error" = counter (HEAL_ERRORS s) "cycle_error" /\
      (forall e, Ok b <> Raise (ApiException e)) /\
      (Ok b = Ok true ->
         count_if is_accepted_patch evs0 = (if dry then 0 else 1)%nat /\
         HEAL_ERRORS s' = HEAL_ERRORS s /\
         exists d,
           HEAL_ACTIONS s'
           = counter_inc (HEAL_ACTIONS s)
               (if dry then "dry_run_restart" else "restart", info_namespace r, d) /\
           (dry = false -> patched evs0 = [(d, info_namespace r)])) /\
      (Ok b <> Ok true ->
         count_if is_accepted_patch evs0 = 0%nat /\ HEAL_ACTIONS s' = HEAL_ACTIONS s)).
  { intros b s' -> Ht Hu Ha Hc. exists evs.
    split; [exact Ht|]. split; [exact Hp|]. split; [exact Hsl|]. split; [exact Hls|].
    split; [rewrite Hpa; cbn; lia|]. split; [auto|]. split; [exact Hu|].
    split; [exact Hc|]. split; [discriminate|]. split; [discriminate|]. auto. }
  destruct res as [d ns'|[|]|[e|e]].
  - destruct dry.
    + rewrite remediate_dry_run. exists evs. cbn.
      split; [reflexivity|]. split; [exact Hp|]. split; [exact Hsl|].
      split; [exact Hls|]. split; [rewrite Hpa; cbn; lia|]. split; [auto|].
      split; [reflexivity|]. split; [reflexivity|]. split; [discriminate|].
      split.
      * intros _. split; [exact Hacc|]. split; [reflexivity|].
        exists d. split; [reflexivity|discriminate].
      * intros H. now destruct H.
    + rewrite remediate_run. cbn zeta. cbn [trace with_trace].
      destruct (patch_namespaced_deployment w (trace s ++ evs) d (info_namespace r) _)
        as [[]|[e|e]];
        eexists (evs ++ [_]); cbn [fst snd trace logged emit action_counted error_counted
                                   with_trace HEAL_ACTIONS HEAL_ERRORS UNHEALTHY_PODS];
        (split; [now rewrite app_assoc|]);
        (split; [rewrite pods_read_app, Hp; reflexivity|]);
        (split; [rewrite sleeps_app, Hsl; reflexivity|]);
        (split; [rewrite listed_app, Hls; reflexivity|]);
        (split; [rewrite patched_app, Hpa; cbn; lia|]);
        (split; [discriminate|]);
        (split; [reflexivity|]).
      * split; [reflexivity|]. split; [discriminate|]. split.
        -- intros _. split; [rewrite count_if_app, Hacc; reflexivity|].
           split; [reflexivity|]. exists d. split; [reflexivity|].
           intros _. now rewrite patched_app, Hpa.
        -- intros H. now destruct H.
      * split; [apply counter_inc_other; discriminate|]. split; [discriminate|].
        split; [discriminate|]. intros _.
        split; [rewrite count_if_app, Hacc; reflexivity|reflexivity].
      * split; [reflexivity|]. split; [discriminate|].
        split; [discriminate|]. intros _.
        split; [rewrite count_if_app, Hacc; reflexivity|reflexivity].
  - apply Hskip; reflexivity.
  - apply Hskip; reflexivity.
  - apply Hskip; try reflexivity. cbn. apply counter_inc_other. discriminate.
  - exists evs. cbn.
    split; [reflexivity|]. split; [exact Hp|]. split; [exact Hsl|].
    split; [exact Hls|]. split; [rewrite Hpa; cbn; lia|]. split; [auto|].
    split; [reflexivity|]. split; [reflexivity|]. split; [discriminate|].
    split; [discriminate|]. auto.
Qed.

(** X9.  Outside a dry run, one call of [heal_deployment] sends at most
    one patch, in any cluster.  It answers [True] exactly when that patch
    was accepted; the [restart] counter of the patched deployment is then
    one higher and the error counters are as before.  Whenever it does not
    answer [True], no action is counted. *)
Theorem heal_deployment_outcome w r s :
  let out := heal_deployment w false r s in
  exists evs,
    trace (snd out) = trace s ++ evs /\
    (length (patched evs) <= 1)%nat /\
    (fst out = Ok true <-> count_if is_accepted_patch evs = 1%nat) /\
    (fst out = Ok true ->
       HEAL_ERRORS (snd out) = HEAL_ERRORS s /\
       exists d,
         patched evs = [(d, info_namespace r)] /\
         counter (HEAL_ACTIONS (snd out)) ("restart", info_namespace r, d)
         = S (counter (HEAL_ACTIONS s) ("restart", info_namespace r, d))) /\
    (fst out <> Ok true -> HEAL_ACTIONS (snd out) = HEAL_ACTIONS s).
Proof.
  cbn zeta.
  destruct (heal_deployment_effects w false r s)
    as (evs & Ht & _ & _ & _ & Hle & _ & _ & _ & _ & Htrue & Hfalse).
  exists evs. split; [exact Ht|]. split; [exact Hle|]. split; [split|split].
  - intros H. exact (proj1 (Htrue H)).
  - intros Hc.
    destruct (result_eq_true_dec (fst (heal_deployment w false r s))) as [H|H];
      [exact H|].
    destruct (Hfalse H) as (H0 & _). rewrite H0 in Hc. discriminate.
  - intros H. destruct (Htrue H) as (_ & He & d & Ha & Hp).
    split; [exact He|]. exists d. split; [now apply Hp|].
    rewrite Ha. apply counter_inc_same.
  - intros H. exact (proj2 (Hfalse H)).
Qed.

(** ** The loops of the cycle, in any cluster *)

Lemma repeat_snoc {A} (x : A) n : repeat x n ++ [x] = repeat x (S n).
Proof. induction n as [|n IH]; cbn; [reflexivity|]. now rewrite IH. Qed.

(** One turn of the loop over the records. *)
Lemma heal_pods_cons w threshold dry ns r rest count s :
  heal_pods w threshold dry ns (r :: rest) count s =
  match heal_deployment w dry r
          (logged INFO ("Pod " +:+ info_name r +:+ " in " +:+ ns +:+ " has "
                        +:+ pretty (info_restart_count r)
                        +:+ " restarts (threshold: " +:+ pretty threshold +:+ ")") s)
  with
  | (Ok true, s1) => heal_pods w threshold dry ns rest (S count) (emit (Sleep 2) s1)
  | (Ok false, s1) => heal_pods w threshold dry ns rest count s1
  | (Raise e, s1) => (Raise e, s1)
  end.
Proof.
  cbn [heal_pods]. unfold bind at 1. unfold logger at 1. unfold bind at 1.
  now destruct (heal_deployment w dry r _) as [[[|]|e] s1].
Qed.

(** One turn of the loop over the namespaces. *)
Lemma heal_namespaces_cons w threshold dry ns records rest count s :
  heal_namespaces w threshold dry ((ns, records) :: rest) count s =
  match heal_pods w threshold dry ns records count s with
  | (Ok n, s1) => heal_namespaces w threshold dry rest n s1
  | (Raise e, s1) => (Raise e, s1)
  end.
Proof. reflexivity. Qed.

(** Everything the loop over the records of one namespace can do. *)
Lemma heal_pods_effects w threshold dry ns records count s :
  let out := heal_pods w threshold dry ns records count s in
  exists evs,
    trace (snd out) = trace s ++ evs /\
    listed evs = [] /\
    (dry = true -> mutating_calls evs = []) /\
    UNHEALTHY_PODS (snd out) = UNHEALTHY_PODS s /\
    counter (HEAL_ERRORS (snd out)) "cycle_error" = counter (HEAL_ERRORS s) "cycle_error" /\
    (forall e, fst out <> Raise (ApiException e)) /\
    (forall n, fst out = Ok n ->
       (count <= n <= count + length records)%nat /\
       sleeps evs = repeat 2 (n - count) /\
       (dry = false -> count_if is_accepted_patch evs = (n - count)%nat) /\
       pods_read evs = map record_key records).
Proof.
  cbn zeta. revert count s.
  induction records as [|r rest IH]; intros count s.
  - exists []. cbn. rewrite app_nil_r.
    split; [reflexivity|]. split; [reflexivity|]. split; [reflexivity|].
    split; [reflexivity|]. split; [reflexivity|]. split; [discriminate|].
    intros n [= <-]. rewrite Nat.sub_diag. cbn. repeat split; lia.
  - rewrite heal_pods_cons.
    set (s0 := logged INFO _ s).
    destruct (heal_deployment_effects w dry r s0)
      as (evs & Ht & Hp & Hsl & Hls & _ & Hm & Hu & Hc & Hnr & Htrue & Hfalse).
    cbn zeta in *.
    destruct (heal_deployment w dry r s0) as [[b|e] s1]; cbn [fst snd] in *.
    + destruct b.
      * (* healed: sleep, then the rest *)
        destruct (Htrue eq_refl) as (Hacc & _).
        destruct (IH (S count) (emit (Sleep 2) s1))
          as (evs' & Ht' & Hls' & Hm' & Hu' & Hc' & Hnr' & Hok').
        exists (evs ++ Sleep 2 :: evs').
        split; [rewrite Ht'; cbn [trace emit]; rewrite Ht; subst s0; cbn [trace logged];
                now rewrite <- !app_assoc|].
        split; [rewrite listed_app, Hls; cbn; exact Hls'|].
        split; [intros Hd; rewrite mutating_calls_app, (Hm Hd); cbn; now apply Hm'|].
        split; [rewrite Hu'; cbn [UNHEALTHY_PODS emit]; rewrite Hu; reflexivity|].
        split; [rewrite Hc'; cbn [HEAL_ERRORS emit]; rewrite Hc; reflexivity|].
        split; [exact Hnr'|].
        intros n Hn. destruct (Hok' n Hn) as (Hb & Hs' & Ha' & Hp').
        split; [cbn [length]; lia|].
        split.
        { rewrite sleeps_app, Hsl. cbn. rewrite Hs'.
          replace (n - count)%nat with (S (n - S count)) by lia. reflexivity. }
        split.
        { intros Hd. rewrite count_if_app, count_if_cons, Hacc, (Ha' Hd), Hd. cbn. lia. }
        rewrite pods_read_app, Hp. cbn. now rewrite Hp'.
      * (* not healed: the rest *)
        assert (Hne : Ok false <> Ok true) by discriminate.
        destruct (Hfalse Hne) as (Hacc & _).
        destruct (IH count s1) as (evs' & Ht' & Hls' & Hm' & Hu' & Hc' & Hnr' & Hok').
        exists (evs ++ evs').
        split; [rewrite Ht', Ht; subst s0; cbn [trace logged]; now rewrite <- app_assoc|].
        split; [now rewrite listed_app, Hls, Hls'|].
        split; [intros Hd; now rewrite mutating_calls_app, (Hm Hd), (Hm' Hd)|].
        split; [rewrite Hu', Hu; reflexivity|].
        split; [rewrite Hc', Hc; reflexivity|].
        split; [exact Hnr'|].
        intros n Hn. destruct (Hok' n Hn) as (Hb & Hs' & Ha' & Hp').
        split; [cbn [length]; lia|].
        split; [now rewrite sleeps_app, Hsl, Hs'|].
        split; [intros Hd; rewrite count_if_app, Hacc, (Ha' Hd); reflexivity|].
        rewrite pods_read_app, Hp. cbn. now rewrite Hp'.
    + (* the remediation raised *)
      exists evs.
      split; [rewrite Ht; subst s0; reflexivity|].
      split; [exact Hls|]. split; [exact Hm|]. split; [exact Hu|]. split; [exact Hc|].
      split; [|discriminate].
      intros e0 [= ->]. now apply (Hnr e0).
Qed.

(** Everything the loop over the namespaces can do. *)
Lemma heal_namespaces_effects w threshold dry items count s :
  let out := heal_namespaces w threshold dry items count s in
  exists evs,
    trace (snd out) = trace s ++ evs /\
    listed evs = [] /\
    (dry = true -> mutating_calls evs = []) /\
    UNHEALTHY_PODS (snd out) = UNHEALTHY_PODS s /\
    counter (HEAL_ERRORS (snd out)) "cycle_error" = counter (HEAL_ERRORS s) "cycle_error" /\
    (forall e, fst out <> Raise (ApiException e)) /\
    (forall n, fst out = Ok n ->
       (count <= n <= count + length (records_in items))%nat /\
       sleeps evs = repeat 2 (n - count) /\
       (dry = false -> count_if is_accepted_patch evs = (n - count)%nat) /\
       pods_read evs = map record_key (records_in items)).
Proof.
  cbn zeta. revert count s.
  induction items as [|[ns records] rest IH]; intros count s.
  - exists []. cbn. rewrite app_nil_r.
    split; [reflexivity|]. split; [reflexivity|]. split; [reflexivity|].
    split; [reflexivity|]. split; [reflexivity|]. split; [discriminate|].
    intros n [= <-]. rewrite Nat.sub_diag. cbn. repeat split; lia.
  - rewrite heal_namespaces_cons.
    destruct (heal_pods_effects w threshold dry ns records count s)
      as (evs & Ht & Hls & Hm & Hu & Hc & Hnr & Hok).
    cbn zeta in *.
    destruct (heal_pods w threshold dry ns records count s) as [[n1|e] s1];
      cbn [fst snd] in *.
    + destruct (Hok n1 eq_refl) as (Hb & Hsl & Hacc & Hp).
      destruct (IH n1 s1) as (evs' & Ht' & Hls' & Hm' & Hu' & Hc' & Hnr' & Hok').
      exists (evs ++ evs').
      split; [rewrite Ht', Ht; now rewrite <- app_assoc|].
      split; [now rewrite listed_app, Hls, Hls'|].
      split; [intros Hd; now rewrite mutating_calls_app, (Hm Hd), (Hm' Hd)|].
      split; [congruence|]. split; [congruence|]. split; [exact Hnr'|].
      intros n Hn. destruct (Hok' n Hn) as (Hb' & Hsl' & Hacc' & Hp').
      unfold records_in in *. cbn [map concat snd]. rewrite length_app.
      split; [lia|].
      split.
      { rewrite sleeps_app, Hsl, Hsl', <- repeat_app. f_equal. lia. }
      split; [intros Hd; rewrite count_if_app, (Hacc Hd), (Hacc' Hd); lia|].
      now rewrite pods_read_app, Hp, Hp', map_app.
    + exists evs.
      split; [exact Ht|]. split; [exact Hls|]. split; [exact Hm|]. split; [exact Hu|].
      split; [exact Hc|]. split; [|discriminate].
      intros e0 [= ->]. now apply (Hnr e0).
Qed.

(** X10.  With a client whose failures are [ApiException]s, the loops of
    the cycle sleep 2 seconds once for each record healed and never
    otherwise: a skipped or failed record costs no delay.  The count of
    healed records grows by at most one per record, and outside a dry run
    it grows by exactly the number of patches accepted. *)
Theorem successful_remediations_are_throttled w threshold dry items count s :
  raises_only_ApiException w ->
  exists n s' evs,
    heal_namespaces w threshold dry items count s = (Ok n, s') /\
    trace s' = trace s ++ evs /\
    (count <= n <= count + length (records_in items))%nat /\
    sleeps evs = repeat 2 (n - count) /\
    (dry = false -> count_if is_accepted_patch evs = (n - count)%nat).
Proof.
  intros Hw.
  destruct (heal_namespaces_all w threshold dry items count s Hw) as (n & s' & E & _).
  destruct (heal_namespaces_effects w threshold dry items count s)
    as (evs & Ht & _ & _ & _ & _ & _ & Hok).
  cbn zeta in *. rewrite E in *. cbn [fst snd] in *.
  destruct (Hok n eq_refl) as (Hb & Hsl & Hacc & _).
  exists n, s', evs. auto.
Qed.

Lemma successful_remediations_are_throttled_witness :
  exists n s' evs,
    heal_namespaces batch_of_five 3 false [("portal", five_records)] 0 initial_state
    = (Ok n, s') /\
    sleeps evs = repeat 2 (n - 0) /\
    count_if is_accepted_patch evs = (n - 0)%nat.
Proof.
  destruct (successful_remediations_are_throttled batch_of_five 3 false
              [("portal", five_records)] 0%nat initial_state
              (still_cluster_raises_only_ApiException _ _ _ _))
    as (n & s' & evs & E & _ & _ & Hsl & Hacc).
  exists n, s', evs. split; [exact E|]. split; [exact Hsl|exact (Hacc eq_refl)].
Defined.

(** ** The whole cycle *)

(** [run_healing_cycle] step by step. *)
Lemma run_healing_cycle_run w threshold dry s :
  run_healing_cycle w threshold dry s =
  match get_unhealthy_pods w threshold None
          (logged INFO "Starting auto-healer cycle" s) with
  | (Ok d, s1) =>
      let total := list_sum (map (fun kv => length (snd kv)) d) in
      let s2 := gauge_set (Z.of_nat total) s1 in
      match d with
      | [] => (Ok tt, logged INFO "No unhealthy pods found" s2)
      | _ :: _ =>
          match heal_namespaces w threshold dry d 0
                  (logged INFO ("Found " +:+ pretty total +:+ " unhealthy pods across "
                                +:+ pretty (length d) +:+ " namespaces") s2) with
          | (Ok n, s4) =>
              (Ok tt, logged INFO ("Healing cycle completed. Healed " +:+ pretty n
                                   +:+ " deployments") s4)
          | (Raise e, s4) =>
              (Ok tt, error_counted "cycle_error"
                        (logged ERROR ("Healing cycle failed: " +:+ exn_str e) s4))
          end
      end
  | (Raise e, s1) =>
      (Ok tt, error_counted "cycle_error"
                (logged ERROR ("Healing cycle failed: " +:+ exn_str e) s1))
  end.
Proof.
  unfold run_healing_cycle. unfold bind at 1. unfold logger at 1.
  unfold try_except_Exception. unfold bind at 1.
  destruct (get_unhealthy_pods w threshold None _) as [[d|e] s1]; [|reflexivity].
  unfold bind at 1. unfold UNHEALTHY_PODS_set at 1.
  destruct d as [|kv d]; [reflexivity|].
  unfold bind at 1. unfold logger at 1. unfold bind at 1.
  now destruct (heal_namespaces w threshold dry (kv :: d) 0 _) as [[n|e] s4].
Qed.

Lemma list_sum_lengths (d : list (string * list pod_info)) :
  list_sum (map (fun kv => length (snd kv)) d) = length (records_in d).
Proof.
  unfold records_in. induction d as [|kv d IH]; [reflexivity|].
  cbn [map concat]. rewrite length_app, <- IH. reflexivity.
Qed.

Lemma list_pods_only evs :
  forallb is_list_pods evs = true ->
  mutating_calls evs = [] /\ pods_read evs = [] /\ sleeps evs = [].
Proof.
  induction evs as [|ev evs IH]; [now repeat split|].
  cbn [forallb]. intros H. apply andb_true_iff in H as (Hev & H).
  destruct ev as [[]|]; try discriminate. cbn. now apply IH.
Qed.

(** X11.  [run_healing_cycle] never raises, in any cluster and whatever
    the client raises: it returns normally, having counted at most one
    [cycle_error]. *)
Theorem run_healing_cycle_never_raises w threshold dry s :
  let out := run_healing_cycle w threshold dry s in
  fst out = Ok tt /\
  (counter (HEAL_ERRORS (snd out)) "cycle_error"
   <= S (counter (HEAL_ERRORS s) "cycle_error"))%nat.
Proof.
  cbn zeta. rewrite run_healing_cycle_run.
  set (s0 := logged INFO "Starting auto-healer cycle" s).
  destruct (scan_namespaces_effects w threshold (namespaces_scanned None) [] s0)
    as (evs & _ & _ & _ & _ & Hother & _).
  specialize (Hother "cycle_error" ltac:(discriminate)).
  unfold get_unhealthy_pods. fold (namespaces_scanned None).
  cbn zeta in Hother.
  destruct (scan_namespaces w threshold (namespaces_scanned None) [] s0)
    as [[d|e] s1]; cbn [fst snd] in *.
  - cbn zeta. destruct d as [|kv d].
    + split; [reflexivity|]. cbn. rewrite Hother. subst s0. cbn. lia.
    + set (s3 := logged INFO _ _).
      destruct (heal_namespaces_effects w threshold dry (kv :: d) 0 s3)
        as (evs' & _ & _ & _ & _ & Hc & _).
      cbn zeta in Hc.
      destruct (heal_namespaces w threshold dry (kv :: d) 0 s3) as [[n|e] s4];
        cbn [fst snd] in *; (split; [reflexivity|]); cbn [HEAL_ERRORS logged error_counted].
      * rewrite Hc. subst s3. cbn. rewrite Hother. subst s0. cbn. lia.
      * rewrite counter_inc_same, Hc. subst s3. cbn. rewrite Hother. subst s0. cbn. lia.
  - split; [reflexivity|]. cbn [snd HEAL_ERRORS logged error_counted].
    rewrite counter_inc_same, Hother. subst s0. cbn. lia.
Qed.

(** X12.  A dry-run cycle sends no patch, in any cluster: after
    [run_healing_cycle] with [dry_run] set, the patches in the history are
    those that were there before. *)
Theorem dry_run_cycle_never_patches w threshold s :
  mutating_calls (trace (snd (run_healing_cycle w threshold true s)))
  = mutating_calls (trace s).
Proof.
  rewrite run_healing_cycle_run.
  set (s0 := logged INFO "Starting auto-healer cycle" s).
  destruct (scan_namespaces_effects w threshold (namespaces_scanned None) [] s0)
    as (evs & Ht & Hl & _).
  destruct (list_pods_only evs Hl) as (Hm & _).
  unfold get_unhealthy_pods. fold (namespaces_scanned None).
  cbn zeta in Ht.
  assert (H1 : forall s1, trace s1 = trace s0 ++ evs ->
                          mutating_calls (trace s1) = mutating_calls (trace s)).
  { intros s1 ->. rewrite mutating_calls_app, Hm, app_nil_r. reflexivity. }
  destruct (scan_namespaces w threshold (namespaces_scanned None) [] s0)
    as [[d|e] s1]; cbn [fst snd] in *.
  - cbn zeta. destruct d as [|kv d]; [exact (H1 s1 Ht)|].
    set (s3 := logged INFO _ _).
    destruct (heal_namespaces_effects w threshold true (kv :: d) 0 s3)
      as (evs' & Ht' & _ & Hm' & _).
    cbn zeta in Ht'. specialize (Hm' eq_refl).
    assert (H3 : forall s4, trace s4 = trace s3 ++ evs' ->
                            mutating_calls (trace s4) = mutating_calls (trace s)).
    { intros s4 ->. rewrite mutating_calls_app, Hm', app_nil_r. exact (H1 s1 Ht). }
    destruct (heal_namespaces w threshold true (kv :: d) 0 s3) as [[n|e] s4];
      cbn [fst snd] in *; exact (H3 s4 Ht').
  - exact (H1 s1 Ht).
Qed.

(** X13.  With a client whose failures are [ApiException]s, the cycle
    remediates exactly what its scan found: the scan returns a dictionary,
    the gauge is set to the number of its records, and the pods read for
    remediation are the pods of those records, one read per record, in
    order.  The two default namespaces are the ones listed, no
    [cycle_error] is counted, and when the scan finds nothing the cycle
    sends nothing more than the two lists. *)
Theorem run_healing_cycle_remediates_what_it_found w threshold dry s :
  raises_only_ApiException w ->
  let out := run_healing_cycle w threshold dry s in
  exists d s1,
    get_unhealthy_pods w threshold None (logged INFO "Starting auto-healer cycle" s)
    = (Ok d, s1) /\
    fst out = Ok tt /\
    UNHEALTHY_PODS (snd out) = Z.of_nat (length (records_in d)) /\
    pods_read (trace (snd out))
    = pods_read (trace s) ++ map record_key (records_in d) /\
    listed (trace (snd out)) = listed (trace s) ++ ["portal"; "hrt-sre"] /\
    counter (HEAL_ERRORS (snd out)) "cycle_error" = counter (HEAL_ERRORS s) "cycle_error" /\
    (d = [] -> trace (snd out) = trace s1).
Proof.
  intros Hw. cbn zeta. rewrite run_healing_cycle_run.
  set (s0 := logged INFO "Starting auto-healer cycle" s).
  unfold get_unhealthy_pods. fold (namespaces_scanned None).
  destruct (scan_namespaces_effects w threshold (namespaces_scanned None) [] s0)
    as (evs & Ht & Hl & _ & _ & Hother & _ & Htot & Hok).
  specialize (Hother "cycle_error" ltac:(discriminate)).
  destruct (list_pods_only evs Hl) as (_ & Hpr & _).
  destruct (Htot Hw) as (d & Hd). destruct (Hok d Hd) as (Hls & _).
  cbn zeta in *.
  destruct (scan_namespaces w threshold (namespaces_scanned None) [] s0)
    as [res s1]. cbn [fst snd] in *. subst res.
  exists d, s1. split; [reflexivity|]. cbn zeta.
  rewrite list_sum_lengths.
  destruct d as [|kv d].
  - cbn. split; [reflexivity|]. split; [reflexivity|].
    rewrite Ht. subst s0. cbn [trace logged].
    rewrite pods_read_app, Hpr, listed_app, Hls, !app_nil_r.
    split; [reflexivity|]. split; [reflexivity|]. split; [exact Hother|reflexivity].
  - set (s3 := logged INFO _ _).
    destruct (heal_namespaces_all w threshold dry (kv :: d) 0 s3 Hw) as (n & s4 & E & _).
    destruct (heal_namespaces_effects w threshold dry (kv :: d) 0 s3)
      as (evs' & Ht' & Hls' & _ & Hu' & Hc' & _ & Hok').
    cbn zeta in *. rewrite E in *. cbn [fst snd] in *.
    destruct (Hok' n eq_refl) as (_ & _ & _ & Hp').
    split; [reflexivity|]. cbn [UNHEALTHY_PODS trace HEAL_ERRORS logged].
    split; [rewrite Hu'; reflexivity|].
    rewrite Ht'. subst s3. cbn [trace logged gauge_set]. rewrite Ht. subst s0.
    cbn [trace logged].
    rewrite !pods_read_app, Hpr, Hp', !listed_app, Hls, Hls', !app_nil_r.
    split; [reflexivity|]. split; [reflexivity|].
    split; [rewrite Hc'; exact Hother|discriminate].
Qed.

Lemma run_healing_cycle_remediates_what_it_found_witness :
  exists d s1,
    get_unhealthy_pods forbidden_namespace 3 None
      (logged INFO "Starting auto-healer cycle" initial_state) = (Ok d, s1) /\
    pods_read (trace (snd (run_healing_cycle forbidden_namespace 3 false initial_state)))
    = map record_key (records_in d).
Proof.
  destruct (run_healing_cycle_remediates_what_it_found forbidden_namespace 3 false
              initial_state forbidden_namespace_raises_only_ApiException)
    as (d & s1 & E & _ & _ & Hp & _).
  exists d, s1. split; [exact E|exact Hp].
Defined.

(** ** The pod health status (PodRestartHealer.get_pod_health_status) *)

Lemma health_loop_spec started state cs containers all_ready m :
  0 <= m ->
  health_loop started state cs containers all_ready m
  = (containers ++ map (fun c => PyDict (container_info started state c)) cs,
     all_ready && forallb ready cs,
     Z.max m (max_restart cs)).
Proof.
  revert containers all_ready m.
  induction cs as [|c cs IH]; intros containers all_ready m Hm; cbn [health_loop].
  - cbn. rewrite app_nil_r, andb_true_r. repeat f_equal. lia.
  - rewrite IH.
    + cbn [map forallb]. rewrite <- app_assoc. cbn [app].
      unfold max_restart. cbn [map fold_right]. fold (max_restart cs).
      rewrite Z.gtb_ltb.
      f_equal; [f_equal|].
      * destruct (ready c), all_ready; reflexivity.
      * destruct (Z.ltb_spec m (restart_count c)); lia.
    + rewrite Z.gtb_ltb. destruct (Z.ltb_spec m (restart_count c)); lia.
Qed.

(** X14.  For a pod that can be read, the health status has the six keys
    name, namespace, phase, ready, restart_count and containers, in that
    order.  [ready] is true exactly when the pod has container statuses
    and every container is ready; [restart_count] is the largest restart
    count, the very number [get_pod_restart_count] returns for the pod;
    [containers] has one entry per container status, in order.  A pod
    without container statuses is not ready, with restart count 0 and no
    container entries. *)
Theorem pod_health_status_fields w started state n ns s pod :
  read_namespaced_pod w (trace s) n ns = Ok pod ->
  let cs := list_items (container_statuses pod) in
  exists status,
    fst (get_pod_health_status w started state n ns s) = Ok status /\
    map fst status
    = ["name"; "namespace"; "phase"; "ready"; "restart_count"; "containers"] /\
    dict_get status "name" = Some (PyStr n) /\
    dict_get status "namespace" = Some (PyStr ns) /\
    dict_get status "phase" = Some (py_opt_str (phase pod)) /\
    dict_get status "ready"
    = Some (PyBool (list_truthy (container_statuses pod) && forallb ready cs)) /\
    dict_get status "restart_count" = Some (PyInt (max_restart cs)) /\
    dict_get status "containers"
    = Some (PyList (map (fun c => PyDict (container_info started state c)) cs)) /\
    fst (get_pod_restart_count w n ns s) = Ok (max_restart cs).
Proof.
  intros E. cbn zeta.
  rewrite (get_pod_restart_count_value w n ns s pod E).
  unfold get_pod_health_status, try_except_ApiException, bind, call. rewrite E.
  cbn [is_ok].
  destruct (list_truthy (container_statuses pod)) eqn:Ht.
  - rewrite health_loop_spec by lia. cbn [app andb].
    pose proof (max_restart_nonneg (list_items (container_statuses pod))) as Hnn.
    rewrite Z.max_r by exact Hnn.
    eexists. split; [reflexivity|]. cbn. repeat split.
  - assert (list_items (container_statuses pod) = []) as ->.
    { destruct (container_statuses pod) as [[|c cs]|]; (reflexivity || discriminate). }
    eexists. split; [reflexivity|]. cbn. repeat split.
Qed.

Lemma pod_health_status_fields_witness :
  exists status,
    fst (get_pod_health_status restart_cluster example_started example_state
           "web-1" "portal" initial_state) = Ok status /\
    dict_get status "ready" = Some (PyBool true) /\
    dict_get status "restart_count" = Some (PyInt 7).
Proof.
  destruct (pod_health_status_fields restart_cluster example_started example_state
              "web-1" "portal" initial_state two_containers eq_refl)
    as (status & E & _ & _ & _ & _ & Hr & Hc & _).
  exists status. split; [exact E|]. split; [exact Hr|exact Hc].
Defined.

(** X15.  When the read of the pod raises an [ApiException], the health
    status is a dictionary with the keys name, namespace and error only:
    it has no phase, ready, restart_count or containers.  The exception is
    not let through in any cluster, one request is sent, one error is
    logged and no metric is touched. *)
Theorem pod_health_status_error w started state n ns s :
  let out := get_pod_health_status w started state n ns s in
  let answer := read_namespaced_pod w (trace s) n ns in
  trace (snd out) = trace s ++ [Call (ReadPod n ns) (is_ok answer)] /\
  HEAL_ACTIONS (snd out) = HEAL_ACTIONS s /\ HEAL_ERRORS (snd out) = HEAL_ERRORS s /\
  (forall e, fst out <> Raise (ApiException e)) /\
  (forall e, answer = Raise (ApiException e) ->
     fst out = Ok [("name", PyStr n); ("namespace", PyStr ns); ("error", PyStr e)] /\
     log (snd out)
     = log s ++ [(ERROR, "Failed to get health status for pod " +:+ n +:+ ": " +:+ e)]).
Proof.
  cbn zeta. unfold get_pod_health_status, try_except_ApiException, bind, call, logger.
  destruct (read_namespaced_pod w (trace s) n ns) as [pod|[e|e]]; cbn [is_ok].
  - destruct (list_truthy (container_statuses pod)).
    + destruct (health_loop started state _ [] true 0) as [[containers all_ready] m].
      cbn. do 3 (split; [reflexivity|]). split; discriminate.
    + cbn. do 3 (split; [reflexivity|]). split; discriminate.
  - cbn. do 3 (split; [reflexivity|]). split; [discriminate|].
    intros e' [= <-]. split; reflexivity.
  - cbn. do 3 (split; [reflexivity|]). split; discriminate.
Qed.

Lemma pod_health_status_error_witness :
  fst (get_pod_health_status restart_cluster example_started example_state
         "gone-1" "portal" initial_state)
  = Ok [("name", PyStr "gone-1"); ("namespace", PyStr "portal");
        ("error", PyStr "(404) Not Found")].
Proof.
  destruct (pod_health_status_error restart_cluster example_started example_state
              "gone-1" "portal" initial_state) as (_ & _ & _ & _ & H).
  exact (proj1 (H "(404) Not Found" eq_refl)).
Defined.

(** X16.  The entry of a container names one state at most, chosen in the
    order running, waiting, terminated: a running state wins over the two
    others and brings [started_at] and no [reason]; without it a waiting
    state wins over a terminated one and brings its [reason]; then a
    terminated state brings its [reason].  With no state object, or none
    of the three set, the entry has no [state] key at all. *)
Theorem container_state_priority started state c :
  let info := container_info started state c in
  (forall st r, state c = Some st -> state_running st = Some r ->
     dict_get info "state" = Some (PyStr "running") /\
     dict_get info "started_at" = Some (py_opt_str (started_at r)) /\
     dict_get info "reason" = None) /\
  (forall st wt, state c = Some st -> state_running st = None ->
     state_waiting st = Some wt ->
     dict_get info "state" = Some (PyStr "waiting") /\
     dict_get info "reason" = Some (py_opt_str (waiting_reason wt)) /\
     dict_get info "started_at" = None) /\
  (forall st t, state c = Some st -> state_running st = None ->
     state_waiting st = None -> state_terminated st = Some t ->
     dict_get info "state" = Some (PyStr "terminated") /\
     dict_get info "reason" = Some (py_opt_str (terminated_reason t)) /\
     dict_get info "started_at" = None) /\
  ((state c = None \/
    exists st, state c = Some st /\ state_running st = None /\
               state_waiting st = None /\ state_terminated st = None) ->
   dict_get info "state" = None /\
   map fst info = ["name"; "ready"; "restart_count"; "image"; "started"]).
Proof.
  cbn zeta. unfold container_info.
  split; [|split; [|split]].
  - intros st r -> ->. cbn. now repeat split.
  - intros st wt -> -> ->. cbn. now repeat split.
  - intros st t -> -> -> ->. cbn. now repeat split.
  - intros [-> | (st & -> & -> & -> & ->)]; cbn; now split.
Qed.

Lemma container_state_priority_witness :
  dict_get (container_info example_started example_state (container "sidecar" 7)) "state"
  = Some (PyStr "waiting") /\
  dict_get (container_info example_started example_state (container "sidecar" 7)) "reason"
  = Some (PyStr "CrashLoopBackOff").
Proof.
  destruct (container_state_priority example_started example_state (container "sidecar" 7))
    as (_ & H & _).
  destruct (H _ _ eq_refl eq_refl eq_refl) as (Hs & Hr & _).
  split; [exact Hs|exact Hr].
Defined.

(** ** The counters only go up *)

Lemma counters_grow_inc {K} `{Countable K} (m : gmap K nat) k :
  counters_grow m (counter_inc m k).
Proof.
  intros k'. destruct (decide (k = k')) as [<-|Hne].
  - rewrite counter_inc_same. lia.
  - now rewrite counter_inc_other.
Qed.

Lemma metrics_grow_refl s : metrics_grow s s.
Proof. split; intros k; lia. Qed.

Lemma metrics_grow_trans s1 s2 s3 :
  metrics_grow s1 s2 -> metrics_grow s2 s3 -> metrics_grow s1 s3.
Proof.
  intros (Ha & He) (Ha' & He'). split; intros k.
  - specialize (Ha k). specialize (Ha' k). lia.
  - specialize (He k). specialize (He' k). lia.
Qed.

Lemma metrics_grow_same s s' :
  HEAL_ACTIONS s' = HEAL_ACTIONS s -> HEAL_ERRORS s' = HEAL_ERRORS s -> metrics_grow s s'.
Proof. intros Ha He. unfold metrics_grow. rewrite Ha, He. split; intros k; lia. Qed.

Lemma metrics_grow_action t ns d s s' :
  HEAL_ACTIONS s' = counter_inc (HEAL_ACTIONS s) (t, ns, d) ->
  HEAL_ERRORS s' = HEAL_ERRORS s -> metrics_grow s s'.
Proof.
  intros Ha He. unfold metrics_grow. rewrite Ha, He.
  split; [apply counters_grow_inc|intros k; lia].
Qed.

Lemma metrics_grow_error t s s' :
  HEAL_ACTIONS s' = HEAL_ACTIONS s ->
  HEAL_ERRORS s' = counter_inc (HEAL_ERRORS s) t -> metrics_grow s s'.
Proof.
  intros Ha He. unfold metrics_grow. rewrite Ha, He.
  split; [intros k; lia|apply counters_grow_inc].
Qed.

Lemma heal_deployment_grows w dry r s :
  metrics_grow s (snd (heal_deployment w dry r s)).
Proof.
  rewrite heal_deployment_run.
  destruct (resolveDeployment w (info_name r) (info_namespace r) (trace s))
    as [[d ns'|[|]|[e|e]] h].
  - destruct dry.
    + rewrite remediate_dry_run. now eapply metrics_grow_action.
    + rewrite remediate_run. cbn zeta.
      destruct (patch_namespaced_deployment w _ d (info_namespace r) _) as [[]|[e|e]].
      * now eapply metrics_grow_action.
      * now eapply metrics_grow_error.
      * now apply metrics_grow_same.
  - now apply metrics_grow_same.
  - now apply metrics_grow_same.
  - now eapply metrics_grow_error.
  - now apply metrics_grow_same.
Qed.

Lemma heal_pods_grows w threshold dry ns records count s :
  metrics_grow s (snd (heal_pods w threshold dry ns records count s)).
Proof.
  revert count s. induction records as [|r rest IH]; intros count s.
  - apply metrics_grow_refl.
  - rewrite heal_pods_cons. set (s0 := logged INFO _ s).
    pose proof (heal_deployment_grows w dry r s0) as Hg.
    assert (H0 : metrics_grow s s0) by now apply metrics_grow_same.
    destruct (heal_deployment w dry r s0) as [[[|]|e] s1]; cbn [snd] in Hg.
    + eapply metrics_grow_trans; [exact H0|].
      eapply metrics_grow_trans; [exact Hg|].
      eapply metrics_grow_trans; [|apply IH]. now apply metrics_grow_same.
    + eapply metrics_grow_trans; [exact H0|].
      eapply metrics_grow_trans; [exact Hg|apply IH].
    + eapply metrics_grow_trans; [exact H0|exact Hg].
Qed.

Lemma heal_namespaces_grows w threshold dry items count s :
  metrics_grow s (snd (heal_namespaces w threshold dry items count s)).
Proof.
  revert count s. induction items as [|[ns records] rest IH]; intros count s.
  - apply metrics_grow_refl.
  - rewrite heal_namespaces_cons.
    pose proof (heal_pods_grows w threshold dry ns records count s) as Hg.
    destruct (heal_pods w threshold dry ns records count s) as [[n|e] s1];
      cbn [snd] in Hg; [|exact Hg].
    eapply metrics_grow_trans; [exact Hg|apply IH].
Qed.

Lemma scan_namespaces_grows w threshold namespaces d s :
  metrics_grow s (snd (scan_namespaces w threshold namespaces d s)).
Proof.
  revert d s. induction namespaces as [|ns rest IH]; intros d s.
  - apply metrics_grow_refl.
  - rewrite scan_namespaces_cons.
    destruct (list_namespaced_pod w (trace s) ns) as [pods|[e|e]]; cbn zeta.
    + destruct (scan_pods threshold ns pods []);
        (eapply metrics_grow_trans; [|apply IH]); now apply metrics_grow_same.
    + eapply metrics_grow_trans; [|apply IH]. now eapply metrics_grow_error.
    + now apply metrics_grow_same.
Qed.

(** X17.  Over a healing cycle no counter goes down, in any cluster: every
    child of the action counters and of the error counters reads at least
    what it read before the cycle. *)
Theorem counters_never_decrease w threshold dry s :
  let s' := snd (run_healing_cycle w threshold dry s) in
  (forall k, (counter (HEAL_ACTIONS s) k <= counter (HEAL_ACTIONS s') k)%nat) /\
  (forall k, (counter (HEAL_ERRORS s) k <= counter (HEAL_ERRORS s') k)%nat).
Proof.
  cbn zeta. change (metrics_grow s (snd (run_healing_cycle w threshold dry s))).
  rewrite run_healing_cycle_run.
  set (s0 := logged INFO "Starting auto-healer cycle" s).
  assert (H0 : metrics_grow s s0) by now apply metrics_grow_same.
  unfold get_unhealthy_pods. fold (namespaces_scanned None).
  pose proof (scan_namespaces_grows w threshold (namespaces_scanned None) [] s0) as Hg.
  destruct (scan_namespaces w threshold (namespaces_scanned None) [] s0)
    as [[d|e] s1]; cbn [snd] in Hg.
  - cbn zeta. destruct d as [|kv d].
    + eapply metrics_grow_trans; [exact H0|].
      eapply metrics_grow_trans; [exact Hg|]. now apply metrics_grow_same.
    + set (s3 := logged INFO _ _).
      assert (H3 : metrics_grow s1 s3) by now apply metrics_grow_same.
      pose proof (heal_namespaces_grows w threshold dry (kv :: d) 0 s3) as Hg'.
      destruct (heal_namespaces w threshold dry (kv :: d) 0 s3) as [[n|e] s4];
        cbn [snd] in *;
        (eapply metrics_grow_trans; [exact H0|]);
        (eapply metrics_grow_trans; [exact Hg|]);
        (eapply metrics_grow_trans; [exact H3|]);
        (eapply metrics_grow_trans; [exact Hg'|]).
      * now apply metrics_grow_same.
      * now eapply metrics_grow_error.
  - eapply metrics_grow_trans; [exact H0|].
    eapply metrics_grow_trans; [exact Hg|]. now eapply metrics_grow_error.
Qed.
